(** * IF_Image_Demo: the image-embedding notebook, embedded in Rocq

    The notebook [IF-Image-Demo.ipynb] wraps dataset records in a
    [torch] dataset ([ImageEmbeddingDataset]), iterates it in batches
    through a [DataLoader], calls an embedding network once per batch and
    writes the collected vectors to a tab-separated file.

    This development embeds those cells as Rocq functions and proves the
    properties the specification states about them.  Python values are an
    inductive type, exceptions and [print] output are carried by a small
    writer/error monad, dictionaries read by [record.get] are [gmap]s, and
    the dictionaries the notebook builds itself (whose insertion order
    Python keeps) are association lists.

    The filesystem ([os.path.exists]), the image decoder ([Image.open]),
    the transform, the network and the printing of floats are parameters.
    Creating the output directory, moving tensors to a device, the
    progress bar and the packaging cells have no part in the results
    below and are left out. *)

From Stdlib Require Import ZArith Bool Ascii String DecimalString.
From Stdlib.Strings Require Import Byte.
From stdpp Require Import base option list gmap strings.

Local Open Scope Z_scope.

(** ** Python values *)

(** The values a record field holds: the notebook reads fields that are
    text ([str]), raw text ([bytes]), integers or missing ([None]).  A
    [str] is represented by the bytes of its UTF-8 encoding. *)
Inductive PyVal : Type :=
  | PNone
  | PStr (s : string)
  | PBytes (b : list byte)
  | PInt (n : Z).

(** Python truth value, as tested by [if x] and [x and y]. *)
Definition truthy (v : PyVal) : bool :=
  match v with
  | PNone => false
  | PStr s => negb (String.eqb s "")
  | PBytes b => negb (Nat.eqb (List.length b) 0)
  | PInt n => negb (n =? 0)
  end.

(** [isinstance(v, bytes)]. *)
Definition is_bytes (v : PyVal) : bool :=
  match v with PBytes _ => true | _ => false end.

(** ** Exceptions and printed output *)

Inductive Exn : Type :=
  | UnicodeDecodeError
  | TypeError
  | IndexError
  | KeyError
  | ValueError
  | RuntimeError.

Inductive result (A : Type) : Type :=
  | Ok (a : A)
  | Raise (e : Exn).
Arguments Ok {A} a.
Arguments Raise {A} e.

#[global] Instance result_ret : MRet result := fun _ a => Ok a.
#[global] Instance result_bind : MBind result := fun _ _ f m =>
  match m with Ok a => f a | Raise e => Raise e end.
#[global] Instance result_fmap : FMap result := fun _ _ f m =>
  match m with Ok a => Ok (f a) | Raise e => Raise e end.

(** A computation that prints lines and then returns or raises: the lines
    printed so far stay printed when an exception is raised. *)
Record Py (A : Type) : Type := MkPy { printed : list string; outcome : result A }.
Arguments MkPy {A} printed outcome.
Arguments printed {A} p.
Arguments outcome {A} p.

#[global] Instance Py_ret : MRet Py := fun _ a => MkPy [] (Ok a).
#[global] Instance Py_bind : MBind Py := fun _ _ f m =>
  match outcome m with
  | Ok a => MkPy (printed m ++ printed (f a)) (outcome (f a))
  | Raise e => MkPy (printed m) (Raise e)
  end.

Definition print (line : string) : Py unit := MkPy [line] (Ok tt).
Definition lift {A : Type} (r : result A) : Py A := MkPy [] r.

(** ** [bytes.decode('utf-8')] *)

Definition in_range (lo hi n : N) : bool := ((lo <=? n) && (n <=? hi))%N.
Definition continuation (n : N) : bool := in_range 0x80 0xBF n.

(** Well-formed UTF-8 (the strict decoder: no overlong forms, no
    surrogates, nothing above U+10FFFF). *)
Fixpoint utf8_valid (bs : list N) : bool :=
  match bs with
  | [] => true
  | b0 :: r0 =>
    if (b0 <=? 0x7F)%N then utf8_valid r0 else
    match r0 with
    | [] => false
    | b1 :: r1 =>
      if in_range 0xC2 0xDF b0 then continuation b1 && utf8_valid r1 else
      match r1 with
      | [] => false
      | b2 :: r2 =>
        if in_range 0xE0 0xEF b0 then
          (if (b0 =? 0xE0)%N then in_range 0xA0 0xBF b1
           else if (b0 =? 0xED)%N then in_range 0x80 0x9F b1
           else continuation b1)
          && continuation b2 && utf8_valid r2
        else
        match r2 with
        | [] => false
        | b3 :: r3 =>
          if in_range 0xF0 0xF4 b0 then
            (if (b0 =? 0xF0)%N then in_range 0x90 0xBF b1
             else if (b0 =? 0xF4)%N then in_range 0x80 0x8F b1
             else continuation b1)
            && continuation b2 && continuation b3 && utf8_valid r3
          else false
        end
      end
    end
  end.

(** [b.decode('utf-8')]: the text whose encoding is [b], or
    [UnicodeDecodeError]. *)
Definition bytes_decode (b : list byte) : result string :=
  if utf8_valid (Byte.to_N <$> b) then Ok (string_of_list_byte b)
  else Raise UnicodeDecodeError.

(** ** [str(value)] *)

Definition hex_digit (n : N) : byte :=
  match n with
  | 0%N => "0"%byte | 1%N => "1"%byte | 2%N => "2"%byte | 3%N => "3"%byte
  | 4%N => "4"%byte | 5%N => "5"%byte | 6%N => "6"%byte | 7%N => "7"%byte
  | 8%N => "8"%byte | 9%N => "9"%byte | 10%N => "a"%byte | 11%N => "b"%byte
  | 12%N => "c"%byte | 13%N => "d"%byte | 14%N => "e"%byte | _ => "f"%byte
  end.

(** One byte of [repr(b)] for a [bytes] object quoted with [quote]. *)
Definition repr_byte (quote c : byte) : list byte :=
  let n := Byte.to_N c in
  if Byte.eqb c quote || Byte.eqb c "\"%byte then ["\"%byte; c]
  else if (n =? 9)%N then ["\"%byte; "t"%byte]
  else if (n =? 10)%N then ["\"%byte; "n"%byte]
  else if (n =? 13)%N then ["\"%byte; "r"%byte]
  else if (n <? 32)%N || (127 <=? n)%N
       then ["\"%byte; "x"%byte; hex_digit (n / 16); hex_digit (n mod 16)]
  else [c].

Definition dquote : byte := x22.

Definition has_byte (c : byte) (b : list byte) : bool := existsb (Byte.eqb c) b.

(** [repr(b)] of a [bytes] object: [b'...'], or [b"..."] when the content
    has a single quote and no double quote. *)
Definition bytes_repr (b : list byte) : string :=
  let quote : byte :=
    if has_byte "'"%byte b && negb (has_byte dquote b) then dquote else "'"%byte in
  string_of_list_byte (["b"%byte; quote] ++ concat (repr_byte quote <$> b) ++ [quote]).

Definition int_str (n : Z) : string := NilZero.string_of_int (Z.to_int n).

Definition py_str (v : PyVal) : string :=
  match v with
  | PNone => "None"
  | PStr s => s
  | PBytes b => bytes_repr b
  | PInt n => int_str n
  end.

(** ** [os.path.basename] (POSIX) *)

Definition sep : byte := "/"%byte.

(** [p.rfind(sep)]: index of the last separator, or [-1]. *)
Fixpoint rfind_sep (p : list byte) : Z :=
  match p with
  | [] => -1
  | c :: r =>
    let j := rfind_sep r in
    if 0 <=? j then j + 1 else if Byte.eqb c sep then 0 else -1
  end.

(** [i = p.rfind(sep) + 1; return p[i:]] *)
Definition basename_bytes (p : list byte) : list byte :=
  let i := rfind_sep p + 1 in
  drop (Z.to_nat i) p.

(** Text as [os.path] functions return it: [str] for a [str] path,
    [bytes] for a [bytes] path. *)
Inductive PyText : Type :=
  | TStr (s : string)
  | TBytes (b : list byte).

(** [os.path.basename(p)]; [os.fspath] rejects what is neither [str] nor
    [bytes] with [TypeError]. *)
Definition os_path_basename (p : PyVal) : result PyText :=
  match p with
  | PStr s => Ok (TStr (string_of_list_byte (basename_bytes (list_byte_of_string s))))
  | PBytes b => Ok (TBytes (basename_bytes b))
  | PNone | PInt _ => Raise TypeError
  end.

(** ** Lists and dictionaries *)

(** [l[idx]] with Python's negative indices. *)
Definition list_index {A : Type} (l : list A) (idx : Z) : result A :=
  let i := if idx <? 0 then idx + Z.of_nat (List.length l) else idx in
  if i <? 0 then Raise IndexError
  else match l !! Z.to_nat i with
       | Some x => Ok x
       | None => Raise IndexError
       end.

(** A dictionary built by the notebook: keys in insertion order. *)
Abbreviation Dict V := (list (string * V)).

(** [d[key]] *)
Fixpoint dict_get {V : Type} (d : Dict V) (key : string) : result V :=
  match d with
  | [] => Raise KeyError
  | (k, v) :: d' => if String.eqb k key then Ok v else dict_get d' key
  end.

(** [d[key] = value]: an existing key keeps its place. *)
Fixpoint dict_set {V : Type} (d : Dict V) (key : string) (value : V) : Dict V :=
  match d with
  | [] => [(key, value)]
  | (k, v) :: d' =>
    if String.eqb k key then (k, value) :: d' else (k, v) :: dict_set d' key value
  end.

(** A Record of the dataset loader, read with [record.get(name)]: a
    missing field and a field holding [None] both read as [None]. *)
Abbreviation DatasetRecord := (gmap string PyVal).

Definition record_get (record : DatasetRecord) (name : string) : PyVal :=
  default PNone (record !! name).

(** [for x in xs: ...] over a body that may print or raise. *)
Fixpoint for_each {A S : Type} (xs : list A) (body : S → A → Py S) (s : S) : Py S :=
  match xs with
  | [] => mret s
  | x :: xs' => s' ← body s x; for_each xs' body s'
  end.

(** [[f(x) for x in xs]] *)
Fixpoint map_result {A B : Type} (f : A → result B) (xs : list A) : result (list B) :=
  match xs with
  | [] => Ok []
  | x :: xs' => y ← f x; ys ← map_result f xs'; mret (y :: ys)
  end.

Fixpoint map_py {A B : Type} (f : A → Py B) (xs : list A) : Py (list B) :=
  match xs with
  | [] => mret []
  | x :: xs' => y ← f x; ys ← map_py f xs'; mret (y :: ys)
  end.

(** ** Images *)

(** A decoded raster image in a colour mode, pixels in row order. *)
Record PILImage : Type := {
  img_mode : string;
  img_size : Z * Z;
  img_pixels : list (Z * Z * Z)
}.

(** [Image.new(mode, size, color)] *)
Definition Image_new (mode : string) (size : Z * Z) (color : Z * Z * Z) : PILImage :=
  {| img_mode := mode; img_size := size;
     img_pixels := replicate (Z.to_nat (fst size * snd size)) color |}.

(** ** [safe_decode], the metadata coercion *)

Definition safe_decode (value : PyVal) (default : string) : result string :=
  match value with
  | PBytes b => bytes_decode b
  | PNone => Ok default
  | _ => Ok (py_str value)
  end.

(** The metadata fields, in the order of the dictionary literal. *)
Definition metadata_keys : list string :=
  ["treatment"; "plate"; "well"; "channel"; "hpa_antibody_id"; "ensembl_id"; "ark"].

(** [{'treatment': safe_decode(record.get(f"{prefix}/treatment")), ...}] *)
Definition record_metadata (record : DatasetRecord) (record_set_prefix : string)
  : result (Dict string) :=
  treatment ← safe_decode (record_get record (record_set_prefix +:+ "/treatment")) "";
  plate ← safe_decode (record_get record (record_set_prefix +:+ "/plate")) "";
  well ← safe_decode (record_get record (record_set_prefix +:+ "/well")) "";
  channel ← safe_decode (record_get record (record_set_prefix +:+ "/channel")) "";
  hpa_antibody_id ←
    safe_decode (record_get record (record_set_prefix +:+ "/hpa_antibody_id")) "";
  ensembl_id ← safe_decode (record_get record (record_set_prefix +:+ "/ensembl_id")) "";
  ark ← safe_decode (record_get record (record_set_prefix +:+ "/ark")) "";
  mret [("treatment", treatment); ("plate", plate); ("well", well);
        ("channel", channel); ("hpa_antibody_id", hpa_antibody_id);
        ("ensembl_id", ensembl_id); ("ark", ark)].

(** [image_id = os.path.basename(image_path)], decoded when it is [bytes]. *)
Definition record_image_id (image_path : PyVal) : result string :=
  image_id ← os_path_basename image_path;
  match image_id with
  | TBytes b => bytes_decode b
  | TStr s => Ok s
  end.

Section Notebook.

(** The scalars of tensors and embedding vectors (32-bit floats in the
    notebook), kept abstract with their zero. *)
Variable F : Type.
Variable fzero : F.

(** The local filesystem: [os.path.exists]. *)
Variable os_path_exists : PyVal → bool.

(** [Image.open(path).convert('RGB')]: the decoded image, or the message
    of the exception raised. *)
Variable Image_open_RGB : PyVal → string + PILImage.

(** ** Tensors *)

Record Tensor : Type := { shape : list Z; data : list F }.

Fixpoint numel (shape : list Z) : Z :=
  match shape with
  | [] => 1
  | d :: ds => d * numel ds
  end.

(** [torch.zeros] at a shape *)
Definition torch_zeros (shape : list Z) : Tensor :=
  {| shape := shape; data := replicate (Z.to_nat (numel shape)) fzero |}.

(** What [__getitem__] returns as the image: a tensor, or the decoded
    image itself when no transform is configured. *)
Inductive ImageValue : Type :=
  | AsImage (image : PILImage)
  | AsTensor (t : Tensor).

(** ** The Record Adapter: [ImageEmbeddingDataset] *)

(** The state of the object: the optional transform, a function from
    decoded images to tensors, and three parallel lists. *)
Record ImageEmbeddingDataset : Type := {
  transform : option (PILImage → Tensor);
  image_paths : list PyVal;
  image_ids : list string;
  metadata : list (Dict string)
}.

(** [max_images and len(self.image_paths) >= max_images] *)
Definition cap_reached (max_images : option Z) (self : ImageEmbeddingDataset) : bool :=
  match max_images with
  | None => false
  | Some m => negb (m =? 0) && (m <=? Z.of_nat (List.length (image_paths self)))
  end.

(** [image_path and os.path.exists(image_path)] *)
Definition resolvable (record_set_prefix : string) (record : DatasetRecord) : bool :=
  let image_path := record_get record (record_set_prefix +:+ "/full_path") in
  truthy image_path && os_path_exists image_path.

(** The [for] loop of [__init__]; [break] ends it with the items
    accepted so far. *)
Fixpoint init_loop (record_set_prefix : string) (max_images : option Z)
    (records : list DatasetRecord) (self : ImageEmbeddingDataset)
  : result ImageEmbeddingDataset :=
  match records with
  | [] => Ok self
  | record :: rest =>
    if cap_reached max_images self then Ok self
    else
      let image_path := record_get record (record_set_prefix +:+ "/full_path") in
      if truthy image_path && os_path_exists image_path then
        image_id ← record_image_id image_path;
        md ← record_metadata record record_set_prefix;
        init_loop record_set_prefix max_images rest
          {| transform := transform self;
             image_paths := image_paths self ++ [image_path];
             image_ids := image_ids self ++ [image_id];
             metadata := metadata self ++ [md] |}
      else init_loop record_set_prefix max_images rest self
  end.

(** The lines [__init__] prints after the loop. *)
Definition print_sample (self : ImageEmbeddingDataset) : Py unit :=
  match metadata self with
  | [] => mret tt
  | m0 :: _ =>
    print "Sample metadata:";;
    treatment ← lift (dict_get m0 "treatment");
    print ("  Treatment: " +:+ treatment);;
    plate ← lift (dict_get m0 "plate");
    print ("  Plate: " +:+ plate);;
    well ← lift (dict_get m0 "well");
    print ("  Well: " +:+ well);;
    channel ← lift (dict_get m0 "channel");
    print ("  Channel: " +:+ channel);;
    ark ← lift (dict_get m0 "ark");
    print ("  ARK ID: " +:+ ark)
  end.

(** [ImageEmbeddingDataset(records, record_set_prefix, transform, max_images)] *)
Definition dataset_init (records : list DatasetRecord) (record_set_prefix : string)
    (transform : option (PILImage → Tensor)) (max_images : option Z)
  : Py ImageEmbeddingDataset :=
  self ← lift (init_loop record_set_prefix max_images records
                 {| transform := transform; image_paths := [];
                    image_ids := []; metadata := [] |});
  print_sample self;;
  mret self.

(** [len(dataset)] *)
Definition dataset_len (self : ImageEmbeddingDataset) : Z :=
  Z.of_nat (List.length (image_paths self)).

(** The black placeholder of [__getitem__]. *)
Definition placeholder_image : PILImage := Image_new "RGB" (224, 224) (0, 0, 0).

(** [dataset[idx]] *)
Definition getitem (self : ImageEmbeddingDataset) (idx : Z)
  : Py (ImageValue * string * Dict string) :=
  image_path ← lift (list_index (image_paths self) idx);
  image_id ← lift (list_index (image_ids self) idx);
  md ← lift (list_index (metadata self) idx);
  image ←
    match Image_open_RGB image_path with
    | inr image =>
      mret (match transform self with
            | Some t => AsTensor (t image)
            | None => AsImage image
            end)
    | inl e =>
      print ("Error loading image " +:+ py_str image_path +:+ ": " +:+ e);;
      mret (match transform self with
            | Some t => AsTensor (t placeholder_image)
            | None => AsTensor (torch_zeros [3; 224; 224])
            end)
    end;
  mret (image, image_id, md).

(** ** Batching: the [DataLoader] *)

(** Modelled from the spec: [torch.utils.data.DataLoader] is an external
    library and its batching is not in the notebook, which only
    constructs it with [batch_size=16, shuffle=False, num_workers=0].
    The spec: "Partition items into consecutive batches of size
    [batch_size] (final batch may be smaller), preserving original
    order."  Indices are taken in order and appended to the current
    batch, which is emitted when it holds [batch_size] of them; what is
    left at the end is emitted as the final, shorter batch. *)
Fixpoint batch_sampler {A : Type} (batch_size : nat) (sampler : list A) (batch : list A)
  : list (list A) :=
  match sampler with
  | [] => if (0 <? List.length batch)%nat then [batch] else []
  | idx :: rest =>
    let batch := batch ++ [idx] in
    if (List.length batch =? batch_size)%nat
    then batch :: batch_sampler batch_size rest []
    else batch_sampler batch_size rest batch
  end.

Record DataLoader : Type := {
  dl_dataset : ImageEmbeddingDataset;
  dl_batch_size : Z
}.

(** [DataLoader(dataset, batch_size=..., shuffle=False, num_workers=0)]:
    a batch size that is not positive is refused. *)
Definition DataLoader_new (dataset : ImageEmbeddingDataset) (batch_size : Z)
  : result DataLoader :=
  if batch_size <=? 0 then Raise ValueError
  else Ok {| dl_dataset := dataset; dl_batch_size := batch_size |}.

(** The batches of indices one pass over the loader visits. *)
Definition dataloader_batches (dl : DataLoader) : list (list Z) :=
  batch_sampler (Z.to_nat (dl_batch_size dl))
    (Z.of_nat <$> seq 0 (List.length (image_paths (dl_dataset dl)))) [].

(** [len(dataloader)] *)
Definition dataloader_len (dl : DataLoader) : Z :=
  (dataset_len (dl_dataset dl) + dl_batch_size dl - 1) / dl_batch_size dl.

(** [default_collate] on the images of a batch: tensors of one shape are
    stacked; anything else is refused. *)
Definition collate_images (images : list ImageValue) : result (list Tensor) :=
  ts ← map_result (λ v, match v with
                        | AsTensor t => Ok t
                        | AsImage _ => Raise TypeError
                        end) images;
  match ts with
  | [] => Raise IndexError
  | t0 :: _ =>
    if forallb (λ t, bool_decide (shape t = shape t0)) ts then Ok ts
    else Raise RuntimeError
  end.

(** [default_collate] on the dictionaries of a batch:
    [{key: [d[key] for d in batch] for key in batch[0]}]. *)
Definition collate_metadata (batch : list (Dict string)) : result (Dict (list string)) :=
  match batch with
  | [] => Raise IndexError
  | elem :: _ =>
    map_result (λ kv, values ← map_result (λ d, dict_get d kv.1) batch;
                      mret (kv.1, values)) elem
  end.

(** [default_collate] on a batch of [(image, image_id, metadata)]
    samples: one collated value per position of the tuple; text is kept
    as the list it is. *)
Definition default_collate (batch : list (ImageValue * string * Dict string))
  : result (list Tensor * list string * Dict (list string)) :=
  images ← collate_images ((λ s, s.1.1) <$> batch);
  metadata_batch ← collate_metadata ((λ s, s.2) <$> batch);
  mret (images, (λ s, s.1.2) <$> batch, metadata_batch).

(** One step of the loader's iterator: fetch the samples of a batch of
    indices and collate them. *)
Definition dataloader_fetch (dl : DataLoader) (indices : list Z)
  : Py (list Tensor * list string * Dict (list string)) :=
  samples ← map_py (getitem (dl_dataset dl)) indices;
  lift (default_collate samples).

(** ** The Batch Embedding Runner *)

(** The embedding network, called on one batch of tensors. *)
Variable model : list Tensor → list (list F).

Record Collected : Type := {
  embeddings_list : list (list F);
  image_ids_list : list string;
  metadata_list : list (Dict string)
}.

(** [for key, value_list in metadata_batch.items():
       individual_metadata[key] = value_list[i]] *)
Fixpoint individual_metadata (items : Dict (list string)) (i : Z)
    (individual : Dict string) : result (Dict string) :=
  match items with
  | [] => Ok individual
  | (key, value_list) :: rest =>
    value ← list_index value_list i;
    individual_metadata rest i (dict_set individual key value)
  end.

(** [len(list(metadata_batch.values())[0])] *)
Definition metadata_batch_size (metadata_batch : Dict (list string)) : result nat :=
  match metadata_batch with
  | [] => Raise IndexError
  | (_, value_list) :: _ => Ok (List.length value_list)
  end.

(** The body of the embedding loop on one collated batch. *)
Definition embed_batch (st : Collected)
    (batch : list Tensor * list string * Dict (list string)) : result Collected :=
  let '(images, image_ids, metadata_batch) := batch in
  let embeddings := model images in
  batch_size ← metadata_batch_size metadata_batch;
  individuals ← map_result (λ i, individual_metadata metadata_batch i [])
                  (Z.of_nat <$> seq 0 batch_size);
  mret {| embeddings_list := embeddings_list st ++ embeddings;
          image_ids_list := image_ids_list st ++ image_ids;
          metadata_list := metadata_list st ++ individuals |}.

(** One iteration of the embedding loop: the loader yields the next
    batch, the body consumes it. *)
Definition embedding_step (dl : DataLoader) (st : Collected) (indices : list Z)
  : Py Collected :=
  batch ← dataloader_fetch dl indices;
  lift (embed_batch st batch).

(** The embedding cell: one pass over the loader, then the count. *)
Definition embedding_loop (dl : DataLoader) : Py Collected :=
  st ← for_each (dataloader_batches dl) (embedding_step dl)
         {| embeddings_list := []; image_ids_list := []; metadata_list := [] |};
  print ("✅ Generated " +:+ int_str (Z.of_nat (List.length (embeddings_list st)))
         +:+ " embeddings");;
  mret st.

(** ** The Result Writer *)

(** [str] of a float, as the table writer prints it. *)
Variable float_repr : F → string.

(** [np.array(rows)]: a matrix when the rows have one length; an empty
    list gives the empty one-dimensional array. *)
Record ndarray : Type := { nd_shape : list Z; nd_rows : list (list F) }.

Definition np_array (rows : list (list F)) : result ndarray :=
  match rows with
  | [] => Ok {| nd_shape := [0]; nd_rows := [] |}
  | r0 :: _ =>
    if forallb (λ r, (List.length r =? List.length r0)%nat) rows
    then Ok {| nd_shape := [Z.of_nat (List.length rows); Z.of_nat (List.length r0)];
               nd_rows := rows |}
    else Raise ValueError
  end.

Inductive Cell : Type :=
  | CellFloat (x : F)
  | CellStr (s : string).

Record DataFrame : Type := {
  df_columns : list string;
  df_rows : list (list Cell)
}.

(** [pd.DataFrame(array, columns=columns)] for a matrix. *)
Definition DataFrame_new (array : ndarray) (columns : list string) : result DataFrame :=
  match nd_shape array with
  | [_; k] =>
    if Z.of_nat (List.length columns) =? k
    then Ok {| df_columns := columns;
               df_rows := (λ row : list F, CellFloat <$> row) <$> nd_rows array |}
    else Raise ValueError
  | _ => Raise ValueError
  end.

(** [df.insert(0, column, values)] *)
Definition DataFrame_insert0 (df : DataFrame) (column : string) (values : list string)
  : result DataFrame :=
  if existsb (String.eqb column) (df_columns df) then Raise ValueError
  else if negb (List.length values =? List.length (df_rows df))%nat then Raise ValueError
  else Ok {| df_columns := column :: df_columns df;
             df_rows := zip_with (λ v row, CellStr v :: row) values (df_rows df) |}.

Definition cell_str (c : Cell) : string :=
  match c with
  | CellFloat x => float_repr x
  | CellStr s => s
  end.

(** A delimited text file, as its lines of fields: the header line, then
    one line per row (the writer's quoting of fields is not modelled). *)
Record CsvFile : Type := {
  csv_sep : string;
  csv_header : list string;
  csv_lines : list (list string)
}.

(** [df.to_csv(path, sep=sep, index=False)] *)
Definition to_csv (df : DataFrame) (sep : string) : CsvFile :=
  {| csv_sep := sep;
     csv_header := df_columns df;
     csv_lines := (λ row : list Cell, cell_str <$> row) <$> df_rows df |}.

Definition tab : string := String (ascii_of_nat 9) "".

(** [row.update(other)] *)
Definition dict_update {V : Type} (row other : Dict V) : Dict V :=
  fold_left (λ d kv, dict_set d kv.1 kv.2) other row.

(** [for i, metadata in enumerate(metadata_list):
       row = {'image_id': image_ids_list[i]}; row.update(metadata)
       metadata_rows.append(row)] *)
Definition metadata_rows (c : Collected) : result (list (Dict string)) :=
  map_result (λ im : nat * Dict string,
                image_id ← list_index (image_ids_list c) (Z.of_nat im.1);
                mret (dict_update [("image_id", image_id)] im.2))
    (zip (seq 0 (List.length (metadata_list c))) (metadata_list c)).

(** The writer cell: the file it writes and the rows of the metadata
    table it builds afterwards. *)
Definition result_writer (c : Collected) : Py (CsvFile * list (Dict string)) :=
  embeddings_array ← lift (np_array (embeddings_list c));
  embedding_dim ← lift (list_index (nd_shape embeddings_array) 1);
  embeddings_df ← lift (DataFrame_new embeddings_array
                     ((λ i, "dim_" +:+ int_str (Z.of_nat i))
                        <$> seq 0 (Z.to_nat embedding_dim)));
  embeddings_df ← lift (DataFrame_insert0 embeddings_df "image_id" (image_ids_list c));
  let embeddings_file := "./densenet_embeddings" +:+ "/" +:+ "image_embeddings.tsv" in
  let file := to_csv embeddings_df tab in
  metadata_df ← lift (metadata_rows c);
  print ("✅ Embeddings saved to: " +:+ embeddings_file);;
  mret (file, metadata_df).

(** ** Specification-side definitions

    What the specification says the adapter computes, written as plain
    list functions; the theorems below compare the loops with them. *)

(** The Indexed Item of an accepted record: its path, identifier and
    metadata. *)
Definition index_item (record_set_prefix : string) (record : DatasetRecord)
  : result (PyVal * string * Dict string) :=
  let image_path := record_get record (record_set_prefix +:+ "/full_path") in
  image_id ← record_image_id image_path;
  md ← record_metadata record record_set_prefix;
  mret (image_path, image_id, md).

(** A field value that [safe_decode] turns into text: anything but
    [bytes] that are not UTF-8. *)
Definition decodable (value : PyVal) : bool :=
  match value with
  | PBytes b => utf8_valid (Byte.to_N <$> b)
  | _ => true
  end.

(** A record whose item can be built: its path is text whose basename
    decodes, and its seven metadata fields decode. *)
Definition record_decodable (record_set_prefix : string) (record : DatasetRecord) : Prop :=
  match record_get record (record_set_prefix +:+ "/full_path") with
  | PStr _ => True
  | PBytes b => utf8_valid (Byte.to_N <$> basename_bytes b) = true
  | PNone | PInt _ => False
  end
  ∧ Forall (λ key, decodable (record_get record (record_set_prefix +:+ ("/" +:+ key)))
                   = true) metadata_keys.

(** The cap on a list of candidates: a cap that is [None] or [0] keeps
    them all, any other cap keeps the first [max_images] (none when it is
    negative). *)
Definition cap_take {A : Type} (max_images : option Z) (l : list A) : list A :=
  match max_images with
  | None => l
  | Some m => if m =? 0 then l else take (Z.to_nat m) l
  end.

(** The records the adapter accepts. *)
Definition accepted (record_set_prefix : string) (max_images : option Z)
    (records : list DatasetRecord) : list DatasetRecord :=
  cap_take max_images (List.filter (resolvable record_set_prefix) records).

(** The cap read literally, as "stop once [max_images] items are
    accepted" for every cap that is given. *)
Definition cap_take_literal {A : Type} (max_images : option Z) (l : list A) : list A :=
  match max_images with
  | None => l
  | Some m => take (Z.to_nat m) l
  end.

(** [image_id] is the basename of [image_path], decoded as UTF-8 when
    the basename is [bytes]. *)
Definition is_basename_of (image_path : PyVal) (image_id : string) : Prop :=
  (∃ s, os_path_basename image_path = Ok (TStr s) ∧ image_id = s)
  ∨ (∃ b, os_path_basename image_path = Ok (TBytes b) ∧ bytes_decode b = Ok image_id).

(** The claim on the adapter with the cap read literally. *)
Definition adapter_claim_literal (records : list DatasetRecord) (record_set_prefix : string)
    (transform : option (PILImage → Tensor)) (max_images : option Z) : Prop :=
  ∃ ds, outcome (dataset_init records record_set_prefix transform max_images) = Ok ds
      ∧ image_paths ds
        = (λ r, record_get r (record_set_prefix +:+ "/full_path"))
            <$> cap_take_literal max_images
                  (List.filter (resolvable record_set_prefix) records).

(** The tensor the accessor yields for an image path under a transform:
    the transformed image, or the transformed placeholder when the image
    cannot be decoded. *)
Definition item_tensor (t : PILImage → Tensor) (image_path : PyVal) : Tensor :=
  match Image_open_RGB image_path with
  | inr image => t image
  | inl _ => t placeholder_image
  end.

(** An Embedding Row: identifier, vector and metadata of one image. *)
Definition EmbeddingRow : Type := string * list F * Dict string.

(** The three parallel lists the embedding cell leaves for the writer. *)
Definition collected_of (rows : list EmbeddingRow) : Collected :=
  {| embeddings_list := (λ r, r.1.2) <$> rows;
     image_ids_list := (λ r, r.1.1) <$> rows;
     metadata_list := (λ r, r.2) <$> rows |}.

(** The column names [dim_0 .. dim_{k-1}]. *)
Definition dim_columns (k : nat) : list string :=
  (λ i, "dim_" +:+ int_str (Z.of_nat i)) <$> seq 0 k.

(** The items a dataset holds, position by position. *)
Definition dataset_items (self : ImageEmbeddingDataset)
  : list (PyVal * string * Dict string) :=
  zip (zip (image_paths self) (image_ids self)) (metadata self).

(** A dataset holding the given items. *)
Definition dataset_of (transform : option (PILImage → Tensor))
    (items : list (PyVal * string * Dict string)) : ImageEmbeddingDataset :=
  {| transform := transform;
     image_paths := (λ it, it.1.1) <$> items;
     image_ids := (λ it, it.1.2) <$> items;
     metadata := (λ it, it.2) <$> items |}.

(** The invariant of a constructed dataset: three parallel lists, every
    metadata dictionary with the keys of the literal. *)
Definition dataset_wf (self : ImageEmbeddingDataset) : Prop :=
  List.length (image_ids self) = List.length (image_paths self)
  ∧ List.length (metadata self) = List.length (image_paths self)
  ∧ Forall (λ md : Dict string, md.*1 = metadata_keys) (metadata self).

(** * Theorems *)

(** ** The monad *)

Lemma outcome_bind {A B : Type} (m : Py A) (f : A → Py B) :
  outcome (m ≫= f) = match outcome m with Ok a => outcome (f a) | Raise e => Raise e end.
Proof. unfold mbind, Py_bind. destruct (outcome m); reflexivity. Qed.

Lemma bind_lift_Ok {A B : Type} (a : A) (f : A → Py B) : lift (Ok a) ≫= f = f a.
Proof. unfold mbind, Py_bind, lift. simpl. destruct (f a). reflexivity. Qed.

Lemma outcome_lift {A : Type} (r : result A) : outcome (lift r) = r.
Proof. reflexivity. Qed.

Lemma map_result_length {A B : Type} (f : A → result B) (xs : list A) (ys : list B) :
  map_result f xs = Ok ys → List.length ys = List.length xs.
Proof.
  revert ys. induction xs as [|x xs IH]; intros ys H; simpl in H.
  - injection H as <-. reflexivity.
  - destruct (f x) as [y|e]; simpl in H; [|discriminate].
    destruct (map_result f xs) as [ys'|e]; simpl in H; [|discriminate].
    injection H as <-. simpl. f_equal. apply IH. reflexivity.
Qed.

(** ** The loop of [__init__] *)

(** What is left of the cap when [n] items are already held. *)
Definition cap_left {A : Type} (max_images : option Z) (n : nat) (l : list A) : list A :=
  match max_images with
  | None => l
  | Some m => if m =? 0 then l else take (Z.to_nat (m - Z.of_nat n)) l
  end.

Definition extend (self : ImageEmbeddingDataset)
    (items : list (PyVal * string * Dict string)) : ImageEmbeddingDataset :=
  {| transform := transform self;
     image_paths := image_paths self ++ ((λ it, it.1.1) <$> items);
     image_ids := image_ids self ++ ((λ it, it.1.2) <$> items);
     metadata := metadata self ++ ((λ it, it.2) <$> items) |}.

Lemma extend_nil self : extend self [] = self.
Proof. destruct self. unfold extend. simpl. rewrite !app_nil_r. reflexivity. Qed.

Lemma extend_cons self it items :
  extend self (it :: items)
  = extend {| transform := transform self;
              image_paths := image_paths self ++ [it.1.1];
              image_ids := image_ids self ++ [it.1.2];
              metadata := metadata self ++ [it.2] |} items.
Proof. unfold extend. simpl. rewrite <- !app_assoc. reflexivity. Qed.

Lemma cap_reached_left {A : Type} max_images self (l : list A) :
  cap_reached max_images self = true →
  cap_left max_images (List.length (image_paths self)) l = [].
Proof.
  unfold cap_reached, cap_left. destruct max_images as [m|]; [|discriminate].
  intros H. apply andb_true_iff in H as [H1 H2].
  apply negb_true_iff in H1. rewrite H1. apply Z.leb_le in H2.
  replace (Z.to_nat (m - Z.of_nat (List.length (image_paths self)))) with 0%nat by lia.
  reflexivity.
Qed.

Lemma cap_not_reached_left {A : Type} max_images self (x : A) (l : list A) :
  cap_reached max_images self = false →
  cap_left max_images (List.length (image_paths self)) (x :: l)
  = x :: cap_left max_images (S (List.length (image_paths self))) l.
Proof.
  unfold cap_reached, cap_left. destruct max_images as [m|]; [|reflexivity].
  intros H. destruct (m =? 0) eqn:E; [reflexivity|]. simpl in H.
  apply Z.leb_gt in H.
  replace (Z.to_nat (m - Z.of_nat (List.length (image_paths self))))
    with (S (Z.to_nat (m - Z.of_nat (S (List.length (image_paths self)))))) by lia.
  reflexivity.
Qed.

Lemma index_item_unfold prefix record :
  index_item prefix record
  = (image_id ← record_image_id (record_get record (prefix +:+ "/full_path"));
     md ← record_metadata record prefix;
     mret (record_get record (prefix +:+ "/full_path"), image_id, md)).
Proof. reflexivity. Qed.

(** The loop is the item construction mapped, in order, over the
    resolvable records the cap lets through: a record that is not
    resolvable contributes neither an item nor an exception. *)
Lemma init_loop_spec prefix max_images records self :
  init_loop prefix max_images records self
  = extend self <$> map_result (index_item prefix)
      (cap_left max_images (List.length (image_paths self))
         (List.filter (resolvable prefix) records)).
Proof.
  revert self. induction records as [|record rest IH]; intros self.
  - simpl. destruct max_images as [m|]; simpl.
    + destruct (m =? 0); [|rewrite take_nil]; simpl; rewrite extend_nil; reflexivity.
    + rewrite extend_nil; reflexivity.
  - simpl. destruct (cap_reached max_images self) eqn:Hcap.
    + rewrite (cap_reached_left _ _ _ Hcap). simpl. rewrite extend_nil. reflexivity.
    + unfold resolvable at 1.
      destruct (truthy _ && os_path_exists _) eqn:Hres.
      * rewrite (cap_not_reached_left _ _ _ _ Hcap). simpl.
        rewrite index_item_unfold.
        destruct (record_image_id _) as [image_id|e]; simpl; [|reflexivity].
        destruct (record_metadata record prefix) as [md|e]; simpl; [|reflexivity].
        rewrite IH. simpl. rewrite length_app. simpl. rewrite Nat.add_1_r.
        destruct (map_result _ _) as [items|e]; simpl; [|reflexivity].
        rewrite extend_cons. reflexivity.
      * apply IH.
Qed.

(** ** Metadata dictionaries *)

(** The dictionary literal is [safe_decode] applied to each field in
    turn. *)
Lemma record_metadata_spec record prefix :
  record_metadata record prefix
  = map_result (λ key, value ← safe_decode (record_get record (prefix +:+ ("/" +:+ key))) "";
                       mret (key, value)) metadata_keys.
Proof.
  unfold record_metadata, metadata_keys. cbv [map_result String.append].
  repeat destruct (safe_decode _ _); reflexivity.
Qed.

Lemma record_metadata_keys record prefix md :
  record_metadata record prefix = Ok md → md.*1 = metadata_keys.
Proof.
  unfold record_metadata.
  repeat destruct (safe_decode _ _); simpl; intros H; try discriminate.
  injection H as <-. reflexivity.
Qed.

Lemma metadata_keys_inv (md : Dict string) :
  md.*1 = metadata_keys →
  ∃ v1 v2 v3 v4 v5 v6 v7,
    md = [("treatment", v1); ("plate", v2); ("well", v3); ("channel", v4);
          ("hpa_antibody_id", v5); ("ensembl_id", v6); ("ark", v7)].
Proof.
  unfold metadata_keys. intros H.
  do 7 (destruct md as [|[? ?] md]; [discriminate|]; simpl in H;
        injection H as <- H).
  destruct md; [|discriminate]. eauto 10.
Qed.

Lemma print_sample_ok self :
  Forall (λ md : Dict string, md.*1 = metadata_keys) (metadata self) →
  outcome (print_sample self) = Ok tt.
Proof.
  unfold print_sample. intros H. destruct (metadata self) as [|m0 ms]; [reflexivity|].
  apply Forall_cons in H as [H _].
  apply metadata_keys_inv in H as (v1 & v2 & v3 & v4 & v5 & v6 & v7 & ->).
  reflexivity.
Qed.

Lemma index_item_keys prefix record it :
  index_item prefix record = Ok it → it.2.*1 = metadata_keys.
Proof.
  rewrite index_item_unfold.
  destruct (record_image_id _); simpl; [|discriminate].
  destruct (record_metadata record prefix) as [md|] eqn:E; simpl; [|discriminate].
  intros H. injection H as <-. simpl. eapply record_metadata_keys, E.
Qed.

Lemma map_index_item_keys prefix records items :
  map_result (index_item prefix) records = Ok items →
  Forall (λ md : Dict string, md.*1 = metadata_keys) ((λ it, it.2) <$> items).
Proof.
  revert items. induction records as [|r rs IH]; intros items H; simpl in H.
  - injection H as <-. constructor.
  - destruct (index_item prefix r) as [it|] eqn:E; simpl in H; [|discriminate].
    destruct (map_result _ rs) as [its|]; simpl in H; [|discriminate].
    injection H as <-. simpl. constructor; [|apply IH; reflexivity].
    eapply index_item_keys, E.
Qed.

(** ** The constructor *)

Lemma cap_left_0 {A : Type} max_images (l : list A) :
  cap_left max_images 0 l = cap_take max_images l.
Proof.
  unfold cap_left, cap_take. destruct max_images as [m|]; [|reflexivity].
  simpl. rewrite Z.sub_0_r. reflexivity.
Qed.

(** The constructor returns the dataset of the accepted records' items,
    or raises what the first failing item construction raises. *)
Lemma dataset_init_outcome records prefix t max_images :
  outcome (dataset_init records prefix t max_images)
  = dataset_of t <$> map_result (index_item prefix) (accepted prefix max_images records).
Proof.
  unfold dataset_init. rewrite outcome_bind, outcome_lift, init_loop_spec.
  simpl. rewrite cap_left_0. fold (accepted prefix max_images records).
  destruct (map_result _ _) as [items|e] eqn:E; simpl; [|reflexivity].
  rewrite outcome_bind, print_sample_ok; [reflexivity|].
  simpl. eapply map_index_item_keys, E.
Qed.

Lemma dataset_of_wf t prefix records items :
  map_result (index_item prefix) records = Ok items → dataset_wf (dataset_of t items).
Proof.
  intros H. unfold dataset_wf, dataset_of. simpl.
  rewrite !length_fmap. repeat split. eapply map_index_item_keys, H.
Qed.

(** Every dataset the constructor returns satisfies the invariant. *)
Lemma dataset_init_wf records prefix t max_images ds :
  outcome (dataset_init records prefix t max_images) = Ok ds → dataset_wf ds.
Proof.
  rewrite dataset_init_outcome.
  destruct (map_result _ _) as [items|e] eqn:E; simpl; [|discriminate].
  intros H. injection H as <-. eapply dataset_of_wf, E.
Qed.

Lemma map_result_Forall2 {A B : Type} (f : A → result B) (xs : list A) (ys : list B) :
  map_result f xs = Ok ys → Forall2 (λ x y, f x = Ok y) xs ys.
Proof.
  revert ys. induction xs as [|x xs IH]; intros ys H; simpl in H.
  - injection H as <-. constructor.
  - destruct (f x) as [y|e] eqn:E; simpl in H; [|discriminate].
    destruct (map_result f xs) as [ys'|e]; simpl in H; [|discriminate].
    injection H as <-. constructor; [assumption|]. apply IH. reflexivity.
Qed.

Lemma dataset_items_of t items : dataset_items (dataset_of t items) = items.
Proof.
  unfold dataset_items, dataset_of. simpl.
  induction items as [|[[p i] m] items IH]; simpl; [reflexivity|]. f_equal. exact IH.
Qed.

Lemma index_item_path prefix record it :
  index_item prefix record = Ok it →
  it.1.1 = record_get record (prefix +:+ "/full_path")
  ∧ record_image_id it.1.1 = Ok it.1.2
  ∧ record_metadata record prefix = Ok it.2.
Proof.
  rewrite index_item_unfold.
  destruct (record_image_id _) as [image_id|] eqn:E1; simpl; [|discriminate].
  destruct (record_metadata record prefix) as [md|] eqn:E2; simpl; [|discriminate].
  intros H. injection H as <-. simpl. auto.
Qed.

Lemma filter_sublist {A : Type} (P : A → bool) (l : list A) :
  sublist (List.filter P l) l ∧ Forall (λ x, P x = true) (List.filter P l).
Proof.
  induction l as [|x l [IH1 IH2]]; simpl; [split; constructor|].
  destruct (P x) eqn:E; split; try constructor; assumption.
Qed.

Lemma cap_take_sublist {A : Type} max_images (l : list A) :
  sublist (cap_take max_images l) l.
Proof.
  unfold cap_take. destruct max_images as [m|]; [|reflexivity].
  destruct (m =? 0); [reflexivity|apply sublist_take].
Qed.

Lemma accepted_sublist prefix max_images records :
  sublist (accepted prefix max_images records) records.
Proof.
  unfold accepted. etransitivity; [apply cap_take_sublist|apply filter_sublist].
Qed.

Lemma accepted_resolvable prefix max_images records :
  Forall (λ r, resolvable prefix r = true) (accepted prefix max_images records).
Proof.
  unfold accepted. apply Forall_forall. intros r Hr.
  apply (proj1 (Forall_forall _ _) (proj2 (filter_sublist (resolvable prefix) records))).
  eapply elem_of_sublist; [exact Hr|apply cap_take_sublist].
Qed.

Lemma map_result_total {A B : Type} (f : A → result B) (xs : list A) :
  Forall (λ x, ∃ y, f x = Ok y) xs → ∃ ys, map_result f xs = Ok ys.
Proof.
  induction 1 as [|x xs [y Hy] _ [ys Hys]]; [exists []; reflexivity|].
  exists (y :: ys). cbn [map_result]. rewrite Hy, Hys. reflexivity.
Qed.

Lemma safe_decode_decodable value :
  decodable value = true → ∃ text, safe_decode value "" = Ok text.
Proof.
  destruct value as [|s|b|n]; simpl; intros H; eauto.
  unfold bytes_decode. rewrite H. eauto.
Qed.

Lemma index_item_decodable prefix record :
  record_decodable prefix record → ∃ it, index_item prefix record = Ok it.
Proof.
  intros [Hpath Hfields]. rewrite index_item_unfold.
  assert (∃ image_id,
            record_image_id (record_get record (prefix +:+ "/full_path")) = Ok image_id)
    as [image_id ->].
  { unfold record_image_id.
    destruct (record_get record (prefix +:+ "/full_path")) as [|s|b|n];
      try contradiction; simpl; [eauto|].
    unfold bytes_decode. rewrite Hpath. eauto. }
  rewrite record_metadata_spec.
  destruct (map_result_total
              (λ key, value ← safe_decode (record_get record (prefix +:+ ("/" +:+ key))) "";
                      mret (key, value)) metadata_keys) as [md ->].
  { eapply Forall_impl; [exact Hfields|]. intros key Hkey. cbv beta in *.
    destruct (safe_decode_decodable _ Hkey) as [text ->]. eauto. }
  eauto.
Qed.

(** C1 (amended): for every ordered sequence of Records, prefix and
    optional cap, the adapter holds exactly one Indexed Item for each
    accepted Record, in the original record order.  The accepted Records
    are those whose image-path field is truthy and exists on the
    filesystem, up to the cap: no cap and a cap of [0] keep them all, any
    other cap keeps the first [max_images] of them; they are a
    sub-sequence of the input.  Records that are not resolvable are
    skipped and never raise; the statement holds whenever the paths of
    the accepted Records are text and their byte strings (basename and
    metadata) are UTF-8. *)
Theorem record_adapter_items records prefix t max_images :
  Forall (record_decodable prefix) (accepted prefix max_images records) →
  ∃ ds, outcome (dataset_init records prefix t max_images) = Ok ds
      ∧ Forall2 (λ r it, index_item prefix r = Ok it)
          (accepted prefix max_images records) (dataset_items ds)
      ∧ List.length (dataset_items ds) = List.length (accepted prefix max_images records)
      ∧ image_paths ds
        = (λ r, record_get r (prefix +:+ "/full_path"))
            <$> accepted prefix max_images records
      ∧ sublist (accepted prefix max_images records) records
      ∧ Forall (λ r, resolvable prefix r = true) (accepted prefix max_images records).
Proof.
  intros Hdec.
  destruct (map_result_total (index_item prefix) (accepted prefix max_images records))
    as [items H].
  { eapply Forall_impl; [exact Hdec|]. apply index_item_decodable. }
  exists (dataset_of t items).
  rewrite dataset_init_outcome, H. simpl. rewrite dataset_items_of.
  split; [reflexivity|]. split; [apply map_result_Forall2, H|].
  split; [eapply map_result_length, H|].
  split; [|split; [apply accepted_sublist|apply accepted_resolvable]].
  apply map_result_Forall2 in H. clear Hdec.
  induction H as [|r it rs its Hit _ IH]; simpl; [reflexivity|].
  f_equal; [|exact IH]. apply index_item_path in Hit as (-> & _ & _). reflexivity.
Qed.

Lemma cap_reached_zero self : cap_reached (Some 0) self = false.
Proof. reflexivity. Qed.

Lemma init_loop_zero prefix records self :
  init_loop prefix (Some 0) records self = init_loop prefix None records self.
Proof.
  revert self. induction records as [|record rest IH]; intros self; [reflexivity|].
  simpl. destruct (truthy _ && os_path_exists _); [|apply IH].
  destruct (record_image_id _); simpl; [|reflexivity].
  destruct (record_metadata record prefix); simpl; [|reflexivity].
  apply IH.
Qed.

(** C10: with [max_images] equal to [0] the constructor behaves as with
    no cap: it accepts every Record with a resolvable image path, because
    the cap test [max_images and ...] is false for [0]. *)
Theorem max_images_zero_is_unset records prefix t :
  dataset_init records prefix t (Some 0) = dataset_init records prefix t None
  ∧ (∀ self, cap_reached (Some 0) self = false)
  ∧ outcome (dataset_init records prefix t (Some 0))
    = dataset_of t <$> map_result (index_item prefix)
                         (List.filter (resolvable prefix) records).
Proof.
  split; [|split].
  - unfold dataset_init. rewrite init_loop_zero. reflexivity.
  - apply cap_reached_zero.
  - rewrite dataset_init_outcome. reflexivity.
Qed.

(** ** Identifiers *)

Lemma rfind_sep_spec p :
  (rfind_sep p = -1 ∧ sep ∉ p)
  ∨ (∃ dir rest, p = dir ++ sep :: rest ∧ rfind_sep p = Z.of_nat (List.length dir)
                 ∧ sep ∉ rest).
Proof.
  induction p as [|c r IH]; simpl.
  - left. split; [reflexivity|]. apply not_elem_of_nil.
  - destruct IH as [[Hr Hnot]|(dir & rest & -> & Hr & Hnot)].
    + rewrite Hr. simpl. destruct (Byte.eqb c _) eqn:E.
      * apply Byte.byte_dec_bl in E as ->. right. exists [], r. auto.
      * left. split; [reflexivity|]. apply Byte.eqb_false in E.
        intros [Heq|?]%elem_of_cons; [unfold sep in *; congruence|contradiction].
    + right. exists (c :: dir), rest. split; [reflexivity|]. split; [|assumption].
      rewrite Hr. destruct (0 <=? Z.of_nat (List.length dir)) eqn:E.
      * simpl. lia.
      * apply Z.leb_gt in E. lia.
Qed.

(** The basename is what follows the last separator: the path is a
    directory part, empty or ending in the separator, followed by a
    basename that holds no separator. *)
Lemma basename_bytes_spec p :
  ∃ dir, p = dir ++ basename_bytes p
       ∧ (sep ∉ basename_bytes p)
       ∧ (dir = [] ∨ ∃ d, dir = d ++ [sep]).
Proof.
  unfold basename_bytes.
  destruct (rfind_sep_spec p) as [[Hr Hnot]|(dir & rest & -> & Hr & Hnot)]; rewrite Hr.
  - exists []. simpl. auto.
  - exists (dir ++ [sep]).
    replace (Z.to_nat (Z.of_nat (List.length dir) + 1)) with (List.length (dir ++ [sep]))
      by (rewrite length_app; simpl; lia).
    rewrite (cons_middle sep dir rest), app_assoc, drop_app_length.
    split; [reflexivity|]. split; [assumption|]. right. eauto.
Qed.

Lemma record_image_id_basename image_path image_id :
  record_image_id image_path = Ok image_id → is_basename_of image_path image_id.
Proof.
  unfold record_image_id, is_basename_of.
  destruct (os_path_basename image_path) as [[s|b]|e]; simpl; [| |discriminate].
  - intros H. injection H as <-. left. eauto.
  - intros H. right. eauto.
Qed.

Lemma list_index_lookup {A : Type} (l : list A) idx x :
  list_index l idx = Ok x →
  l !! Z.to_nat (if idx <? 0 then idx + Z.of_nat (List.length l) else idx) = Some x.
Proof.
  unfold list_index. destruct (_ <? 0); [discriminate|].
  destruct (l !! _); [|discriminate]. intros H. injection H as <-. reflexivity.
Qed.

Lemma dataset_init_items records prefix t max_images ds :
  outcome (dataset_init records prefix t max_images) = Ok ds →
  ∃ items, ds = dataset_of t items
         ∧ Forall2 (λ r it, index_item prefix r = Ok it)
             (accepted prefix max_images records) items.
Proof.
  rewrite dataset_init_outcome.
  destruct (map_result _ _) as [items|e] eqn:E; simpl; [|discriminate].
  intros H. injection H as <-. exists items. split; [reflexivity|].
  apply map_result_Forall2, E.
Qed.

(** C9: in every dataset the adapter returns, the identifier at each
    position is the basename of the image path at that position, decoded
    as UTF-8 when the basename is [bytes]; and every item the accessor
    returns carries the identifier of the path at its index. *)
Theorem item_id_is_basename records prefix t max_images ds :
  outcome (dataset_init records prefix t max_images) = Ok ds →
  List.length (image_ids ds) = List.length (image_paths ds)
  ∧ (∀ i image_path, image_paths ds !! i = Some image_path →
       ∃ image_id, image_ids ds !! i = Some image_id
                 ∧ is_basename_of image_path image_id)
  ∧ (∀ idx image image_id md,
       outcome (getitem ds idx) = Ok (image, image_id, md) →
       ∃ image_path, list_index (image_paths ds) idx = Ok image_path
                   ∧ is_basename_of image_path image_id).
Proof.
  intros Hds. pose proof (dataset_init_wf _ _ _ _ _ Hds) as (Hlen & _ & _).
  apply dataset_init_items in Hds as (items & -> & Hitems).
  assert (Hpos : ∀ i image_path,
             image_paths (dataset_of t items) !! i = Some image_path →
             ∃ image_id, image_ids (dataset_of t items) !! i = Some image_id
                       ∧ is_basename_of image_path image_id).
  { simpl. intros i image_path Hi. rewrite list_lookup_fmap in Hi.
    destruct (items !! i) as [it|] eqn:Eit; [|discriminate].
    simpl in Hi. injection Hi as <-. exists it.1.2.
    rewrite list_lookup_fmap, Eit. split; [reflexivity|].
    destruct (Forall2_lookup_r _ _ _ _ _ Hitems Eit) as (r & _ & Hr).
    apply index_item_path in Hr as (_ & Hid & _).
    apply record_image_id_basename, Hid. }
  split; [exact Hlen|]. split; [exact Hpos|].
  intros idx image image_id md. unfold getitem.
  rewrite outcome_bind, outcome_lift.
  destruct (list_index (image_paths _) idx) as [image_path|] eqn:Ep; [|discriminate].
  rewrite outcome_bind, outcome_lift.
  destruct (list_index (image_ids _) idx) as [image_id'|] eqn:Ei; [|discriminate].
  rewrite outcome_bind, outcome_lift.
  destruct (list_index (metadata _) idx) as [md'|] eqn:Em; [|discriminate].
  rewrite outcome_bind.
  destruct (outcome _) as [image'|]; [|discriminate]. simpl.
  intros H. injection H as _ <- _. exists image_path. split; [reflexivity|].
  apply list_index_lookup in Ep, Ei. rewrite Hlen in Ei.
  destruct (Hpos _ _ Ep) as (image_id & Hid & Hbase).
  rewrite Hid in Ei. injection Ei as <-. exact Hbase.
Qed.


(** ** The accessor *)

Lemma list_index_valid {A : Type} (l : list A) idx :
  - Z.of_nat (List.length l) ≤ idx < Z.of_nat (List.length l) →
  ∃ x, list_index l idx = Ok x.
Proof.
  intros H. unfold list_index.
  destruct (idx <? 0) eqn:E; [apply Z.ltb_lt in E|apply Z.ltb_ge in E].
  - replace (idx + Z.of_nat (List.length l) <? 0) with false by (symmetry; apply Z.ltb_ge; lia).
    destruct (lookup_lt_is_Some_2 l (Z.to_nat (idx + Z.of_nat (List.length l)))) as [x Hx];
      [lia|]. rewrite Hx. eauto.
  - rewrite (proj2 (Z.ltb_ge idx 0) E).
    destruct (lookup_lt_is_Some_2 l (Z.to_nat idx)) as [x Hx]; [lia|]. rewrite Hx. eauto.
Qed.

Lemma placeholder_image_black :
  img_mode placeholder_image = "RGB"
  ∧ img_size placeholder_image = (224, 224)
  ∧ List.length (img_pixels placeholder_image) = Z.to_nat (224 * 224)
  ∧ Forall (λ px, px = (0, 0, 0)) (img_pixels placeholder_image).
Proof.
  unfold placeholder_image, Image_new. cbn [img_mode img_size img_pixels fst snd].
  split; [reflexivity|]. split; [reflexivity|]. split.
  - apply length_replicate.
  - apply Forall_replicate. reflexivity.
Qed.

Lemma torch_zeros_zero sh :
  shape (torch_zeros sh) = sh
  ∧ List.length (data (torch_zeros sh)) = Z.to_nat (numel sh)
  ∧ Forall (λ x, x = fzero) (data (torch_zeros sh)).
Proof.
  unfold torch_zeros. cbn [shape data]. split; [reflexivity|]. split.
  - apply length_replicate.
  - apply Forall_replicate. reflexivity.
Qed.

(** The image slot of the accessor when the source image cannot be
    decoded. *)
Definition placeholder_value (self : ImageEmbeddingDataset) : ImageValue :=
  match transform self with
  | Some t => AsTensor (t placeholder_image)
  | None => AsTensor (torch_zeros [3; 224; 224])
  end.

Lemma getitem_open_failed self idx image_path image_id md e :
  list_index (image_paths self) idx = Ok image_path →
  list_index (image_ids self) idx = Ok image_id →
  list_index (metadata self) idx = Ok md →
  Image_open_RGB image_path = inl e →
  getitem self idx
  = MkPy ["Error loading image " +:+ py_str image_path +:+ ": " +:+ e]
         (Ok (placeholder_value self, image_id, md)).
Proof.
  intros Hp Hi Hm He. unfold getitem, placeholder_value.
  rewrite Hp, bind_lift_Ok, Hi, bind_lift_Ok, Hm, bind_lift_Ok, He.
  generalize placeholder_image (torch_zeros [3; 224; 224]). intros ph tz.
  destruct (transform self); reflexivity.
Qed.

Lemma getitem_open_ok self idx image_path image_id md image :
  list_index (image_paths self) idx = Ok image_path →
  list_index (image_ids self) idx = Ok image_id →
  list_index (metadata self) idx = Ok md →
  Image_open_RGB image_path = inr image →
  getitem self idx
  = MkPy [] (Ok (match transform self with
                 | Some t => AsTensor (t image)
                 | None => AsImage image
                 end, image_id, md)).
Proof.
  intros Hp Hi Hm He. unfold getitem.
  rewrite Hp, bind_lift_Ok, Hi, bind_lift_Ok, Hm, bind_lift_Ok, He.
  destruct (transform self); reflexivity.
Qed.

(** C4: at every valid index of a dataset, when the source image cannot
    be decoded the accessor does not raise: it prints the failure and
    returns the placeholder with the item's identifier and metadata.  The
    placeholder is the transform of the black 224x224 RGB image when a
    transform is configured, and the 3x224x224 zero tensor otherwise. *)
Theorem getitem_placeholder self idx :
  dataset_wf self →
  - dataset_len self ≤ idx < dataset_len self →
  ∃ image_path image_id md,
    list_index (image_paths self) idx = Ok image_path
    ∧ list_index (image_ids self) idx = Ok image_id
    ∧ list_index (metadata self) idx = Ok md
    ∧ (∀ e, Image_open_RGB image_path = inl e →
         getitem self idx
         = MkPy ["Error loading image " +:+ py_str image_path +:+ ": " +:+ e]
                (Ok (placeholder_value self, image_id, md)))
    ∧ (∀ t, transform self = Some t →
         placeholder_value self = AsTensor (t placeholder_image))
    ∧ (transform self = None →
         placeholder_value self = AsTensor (torch_zeros [3; 224; 224]))
    ∧ img_mode placeholder_image = "RGB"
    ∧ img_size placeholder_image = (224, 224)
    ∧ List.length (img_pixels placeholder_image) = Z.to_nat (224 * 224)
    ∧ Forall (λ px, px = (0, 0, 0)) (img_pixels placeholder_image)
    ∧ shape (torch_zeros [3; 224; 224]) = [3; 224; 224]
    ∧ List.length (data (torch_zeros [3; 224; 224])) = Z.to_nat (3 * 224 * 224)
    ∧ Forall (λ x, x = fzero) (data (torch_zeros [3; 224; 224])).
Proof.
  intros (Hids & Hmds & _) Hidx. unfold dataset_len in Hidx.
  destruct (list_index_valid (image_paths self) idx Hidx) as [image_path Hp].
  destruct (list_index_valid (image_ids self) idx) as [image_id Hi];
    [rewrite Hids; exact Hidx|].
  destruct (list_index_valid (metadata self) idx) as [md Hm];
    [rewrite Hmds; exact Hidx|].
  exists image_path, image_id, md.
  split; [exact Hp|]. split; [exact Hi|]. split; [exact Hm|].
  split; [intros e He; apply getitem_open_failed; assumption|].
  split; [intros t Ht; unfold placeholder_value; rewrite Ht; reflexivity|].
  split; [intros Ht; unfold placeholder_value; rewrite Ht; reflexivity|].
  destruct placeholder_image_black as (H1 & H2 & H3 & H4).
  destruct (torch_zeros_zero [3; 224; 224]) as (H5 & H6 & H7).
  repeat (split; [assumption|]). assumption.
Qed.

(** ** Batching *)

Lemma batch_sampler_concat {A : Type} (batch_size : nat) (l acc : list A) :
  concat (batch_sampler batch_size l acc) = acc ++ l.
Proof.
  revert acc. induction l as [|x l IH]; intros acc; simpl.
  - destruct acc; simpl; rewrite ?app_nil_r; reflexivity.
  - destruct (_ =? _)%nat; simpl; rewrite IH, <- ?app_assoc; reflexivity.
Qed.

(** Full batches, then at most one shorter, non-empty batch. *)
Lemma batch_sampler_shape {A : Type} (batch_size : nat) (l acc : list A) :
  (List.length acc < batch_size)%nat →
  ∃ fulls last,
    batch_sampler batch_size l acc = fulls ++ last
    ∧ Forall (λ b, List.length b = batch_size) fulls
    ∧ (last = [] ∨ ∃ b, last = [b] ∧ (0 < List.length b < batch_size)%nat).
Proof.
  revert acc. induction l as [|x l IH]; intros acc Hacc; simpl.
  - exists []. destruct (0 <? List.length acc)%nat eqn:E.
    + apply Nat.ltb_lt in E. exists [acc]. split; [reflexivity|]. split; [constructor|].
      right. exists acc. split; [reflexivity|lia].
    + exists []. split; [reflexivity|]. split; [constructor|]. left; reflexivity.
  - destruct (List.length (acc ++ [x]) =? batch_size)%nat eqn:E.
    + apply Nat.eqb_eq in E.
      destruct (IH []) as (fulls & last & Hb & Hf & Hl); [simpl; lia|].
      exists ((acc ++ [x]) :: fulls), last. rewrite Hb.
      split; [reflexivity|]. split; [constructor; assumption|assumption].
    + apply Nat.eqb_neq in E. apply IH. rewrite length_app in *. simpl in *. lia.
Qed.

Lemma batch_sampler_length {A : Type} (batch_size : nat) (l acc : list A) :
  (List.length acc < batch_size)%nat →
  List.length (batch_sampler batch_size l acc)
  = ((List.length acc + List.length l + batch_size - 1) / batch_size)%nat.
Proof.
  revert acc. induction l as [|x l IH]; intros acc Hacc; simpl.
  - destruct (0 <? List.length acc)%nat eqn:E.
    + apply Nat.ltb_lt in E. simpl.
      apply (Nat.div_unique _ _ 1 (List.length acc - 1)); lia.
    + apply Nat.ltb_ge in E. simpl. symmetry. apply Nat.div_small. lia.
  - destruct (List.length (acc ++ [x]) =? batch_size)%nat eqn:E.
    + apply Nat.eqb_eq in E. rewrite length_app in E. simpl in E.
      simpl. rewrite IH by (simpl; lia). simpl.
      replace (List.length acc + S (List.length l) + batch_size - 1)%nat
        with (1 * batch_size + (List.length l + batch_size - 1))%nat by lia.
      rewrite Nat.div_add_l by lia. reflexivity.
    + apply Nat.eqb_neq in E. rewrite length_app in E. simpl in E.
      rewrite IH by (rewrite length_app; simpl; lia).
      rewrite length_app. simpl. f_equal. lia.
Qed.

(** C3: partitioning N items with batch size B gives ceil(N/B)
    consecutive batches that preserve the original order; every batch
    holds exactly B items except possibly the last, which is shorter but
    not empty. *)
Theorem batches_partition {A : Type} (items : list A) (batch_size : nat) :
  (0 < batch_size)%nat →
  let batches := batch_sampler batch_size items [] in
  concat batches = items
  ∧ List.length batches = ((List.length items + batch_size - 1) / batch_size)%nat
  ∧ (List.length items ≤ List.length batches * batch_size
     < List.length items + batch_size)%nat
  ∧ (∀ i b, batches !! i = Some b → (S i < List.length batches)%nat →
            List.length b = batch_size)
  ∧ (∀ b, b ∈ batches → (1 ≤ List.length b ≤ batch_size)%nat).
Proof.
  intros HB batches.
  assert (Hlen : List.length batches
                 = ((List.length items + batch_size - 1) / batch_size)%nat).
  { unfold batches. rewrite batch_sampler_length by (simpl; lia). reflexivity. }
  destruct (batch_sampler_shape batch_size items []) as (fulls & last & Hb & Hf & Hl);
    [simpl; lia|]. fold batches in Hb.
  split; [apply (batch_sampler_concat batch_size items [])|].
  split; [exact Hlen|]. split.
  - rewrite Hlen.
    pose proof (Nat.div_mod (List.length items + batch_size - 1) batch_size) as Hdm.
    pose proof (Nat.mod_upper_bound (List.length items + batch_size - 1) batch_size) as Hm.
    lia.
  - split.
    + intros i b Hi Hlt. rewrite Hb in Hi, Hlt. rewrite length_app in Hlt.
      assert (i < List.length fulls)%nat as Hif
        by (destruct Hl as [->|(b' & -> & _)]; simpl in Hlt; lia).
      rewrite lookup_app_l in Hi by exact Hif.
      eapply (proj1 (Forall_lookup _ _) Hf), Hi.
    + intros b Hin. rewrite Hb in Hin. apply elem_of_app in Hin as [Hin|Hin].
      * rewrite (proj1 (Forall_forall _ _) Hf b Hin). lia.
      * destruct Hl as [->|(b' & -> & Hb')]; [inversion Hin|].
        apply list_elem_of_singleton in Hin as ->. lia.
Qed.

(** ** The embedding loop *)

Lemma batch_sampler_fmap {A B : Type} (f : A → B) (batch_size : nat) (l acc : list A) :
  batch_sampler batch_size (f <$> l) (f <$> acc)
  = (λ b : list A, f <$> b) <$> batch_sampler batch_size l acc.
Proof.
  revert acc. induction l as [|x l IH]; intros acc; simpl.
  - rewrite length_fmap. destruct (0 <? _)%nat; reflexivity.
  - change ((f <$> acc) ++ [f x]) with ((f <$> acc) ++ (f <$> [x])).
    rewrite <- fmap_app, length_fmap.
    destruct (_ =? _)%nat; [|apply IH].
    rewrite fmap_cons. f_equal. exact (IH []).
Qed.

Lemma batch_sampler_fmap_nil {A B : Type} (f : A → B) (batch_size : nat) (l : list A) :
  batch_sampler batch_size (f <$> l) []
  = (λ b : list A, f <$> b) <$> batch_sampler batch_size l [].
Proof. exact (batch_sampler_fmap f batch_size l []). Qed.

Lemma batch_sampler_Forall2 {A B : Type} (R : A → B → Prop) (batch_size : nat) l l' acc acc' :
  Forall2 R l l' → Forall2 R acc acc' →
  Forall2 (Forall2 R) (batch_sampler batch_size l acc) (batch_sampler batch_size l' acc').
Proof.
  intros Hl. revert acc acc'. induction Hl as [|x y l l' Hxy Hl IH]; intros acc acc' Hacc; simpl.
  - rewrite <- (Forall2_length _ _ _ Hacc).
    destruct (0 <? _)%nat; repeat constructor. exact Hacc.
  - assert (Forall2 R (acc ++ [x]) (acc' ++ [y])) as Hacc'
      by (apply Forall2_app; [exact Hacc|repeat constructor; exact Hxy]).
    rewrite <- (Forall2_length _ _ _ Hacc').
    destruct (_ =? _)%nat; [constructor; [exact Hacc'|apply IH; constructor]|apply IH, Hacc'].
Qed.

Lemma batch_sampler_nonempty {A : Type} (batch_size : nat) (l : list A) :
  (0 < batch_size)%nat → Forall (λ b, b ≠ []) (batch_sampler batch_size l []).
Proof.
  intros HB.
  destruct (batch_sampler_shape batch_size l []) as (fulls & last & -> & Hf & Hl);
    [simpl; lia|].
  apply Forall_app. split.
  - eapply Forall_impl; [exact Hf|]. intros b Hb ->. simpl in Hb. lia.
  - destruct Hl as [->|(b & -> & Hb)]; repeat constructor. intros ->. simpl in Hb. lia.
Qed.

Lemma list_index_nat {A : Type} (l : list A) i x :
  l !! i = Some x → list_index l (Z.of_nat i) = Ok x.
Proof.
  intros H. unfold list_index.
  replace (Z.of_nat i <? 0) with false by (symmetry; apply Z.ltb_ge; lia).
  replace (Z.of_nat i <? 0) with false by (symmetry; apply Z.ltb_ge; lia).
  rewrite Nat2Z.id, H. reflexivity.
Qed.

Lemma map_py_outcome {A B : Type} (f : A → Py B) xs ys :
  Forall2 (λ x y, outcome (f x) = Ok y) xs ys → outcome (map_py f xs) = Ok ys.
Proof.
  induction 1 as [|x y xs ys Hxy _ IH]; simpl; [reflexivity|].
  rewrite outcome_bind, Hxy, outcome_bind, IH. reflexivity.
Qed.

Lemma map_result_fmap_Ok {A B C : Type} (f : B → result C) (g : A → B) (h : A → C) xs :
  (∀ x, x ∈ xs → f (g x) = Ok (h x)) → map_result f (g <$> xs) = Ok (h <$> xs).
Proof.
  induction xs as [|x xs IH]; intros H; [reflexivity|].
  rewrite !fmap_cons. cbn [map_result].
  rewrite H by (apply elem_of_cons; left; reflexivity).
  rewrite IH by (intros y Hy; apply H, elem_of_cons; right; exact Hy). reflexivity.
Qed.

Lemma map_result_seq {A B : Type} (g : Z → result B) (h : A → B) (xs : list A) start :
  (∀ i x, xs !! i = Some x → g (Z.of_nat (start + i)) = Ok (h x)) →
  map_result g (Z.of_nat <$> seq start (List.length xs)) = Ok (h <$> xs).
Proof.
  revert start. induction xs as [|x xs IH]; intros start H; [reflexivity|].
  cbn [List.length seq]. rewrite !fmap_cons. cbn [map_result].
  rewrite <- (Nat.add_0_r start) at 1. rewrite (H 0%nat x eq_refl).
  rewrite IH; [reflexivity|].
  intros i y Hy. replace (S start + i)%nat with (start + S i)%nat by lia.
  apply (H (S i)). exact Hy.
Qed.

(** The seven values of a metadata dictionary. *)
Record Fields : Type := {
  f_treatment : string; f_plate : string; f_well : string; f_channel : string;
  f_hpa_antibody_id : string; f_ensembl_id : string; f_ark : string
}.

Definition fields_dict (x : Fields) : Dict string :=
  [("treatment", f_treatment x); ("plate", f_plate x); ("well", f_well x);
   ("channel", f_channel x); ("hpa_antibody_id", f_hpa_antibody_id x);
   ("ensembl_id", f_ensembl_id x); ("ark", f_ark x)].

Lemma metadata_fields (mds : list (Dict string)) :
  Forall (λ md : Dict string, md.*1 = metadata_keys) mds →
  ∃ xs, mds = fields_dict <$> xs.
Proof.
  induction 1 as [|md mds Hmd _ (xs & ->)]; [exists []; reflexivity|].
  apply metadata_keys_inv in Hmd as (v1 & v2 & v3 & v4 & v5 & v6 & v7 & ->).
  exists ({| f_treatment := v1; f_plate := v2; f_well := v3; f_channel := v4;
             f_hpa_antibody_id := v5; f_ensembl_id := v6; f_ark := v7 |} :: xs).
  reflexivity.
Qed.

(** The collated metadata of a batch: one list of values per key. *)
Definition fields_columns (xs : list Fields) : Dict (list string) :=
  [("treatment", f_treatment <$> xs); ("plate", f_plate <$> xs);
   ("well", f_well <$> xs); ("channel", f_channel <$> xs);
   ("hpa_antibody_id", f_hpa_antibody_id <$> xs);
   ("ensembl_id", f_ensembl_id <$> xs); ("ark", f_ark <$> xs)].

Lemma collate_metadata_fields x xs :
  collate_metadata (fields_dict <$> (x :: xs)) = Ok (fields_columns (x :: xs)).
Proof.
  unfold collate_metadata, fields_columns.
  rewrite fmap_cons. cbv beta iota. rewrite <- fmap_cons.
  unfold fields_dict. cbn [map_result fst].
  rewrite (map_result_fmap_Ok (λ d : Dict string, dict_get d "treatment") _ f_treatment) by (intros; reflexivity).
  rewrite (map_result_fmap_Ok (λ d : Dict string, dict_get d "plate") _ f_plate) by (intros; reflexivity).
  rewrite (map_result_fmap_Ok (λ d : Dict string, dict_get d "well") _ f_well) by (intros; reflexivity).
  rewrite (map_result_fmap_Ok (λ d : Dict string, dict_get d "channel") _ f_channel) by (intros; reflexivity).
  rewrite (map_result_fmap_Ok (λ d : Dict string, dict_get d "hpa_antibody_id") _ f_hpa_antibody_id) by (intros; reflexivity).
  rewrite (map_result_fmap_Ok (λ d : Dict string, dict_get d "ensembl_id") _ f_ensembl_id) by (intros; reflexivity).
  rewrite (map_result_fmap_Ok (λ d : Dict string, dict_get d "ark") _ f_ark) by (intros; reflexivity).
  reflexivity.
Qed.

Lemma individual_metadata_fields xs i x :
  xs !! i = Some x →
  individual_metadata (fields_columns xs) (Z.of_nat i) [] = Ok (fields_dict x).
Proof.
  intros H. unfold fields_columns. cbn [individual_metadata].
  rewrite !(list_index_nat _ i _ (eq_trans (list_lookup_fmap _ _ _) (f_equal _ H))).
  reflexivity.
Qed.

Lemma uncollate_fields xs :
  map_result (λ i, individual_metadata (fields_columns xs) i [])
    (Z.of_nat <$> seq 0 (List.length xs)) = Ok (fields_dict <$> xs).
Proof.
  apply map_result_seq. intros i x H. apply individual_metadata_fields, H.
Qed.

Lemma zip3_projections {A B C : Type} (l1 : list A) (l2 : list B) (l3 : list C) :
  List.length l2 = List.length l1 → List.length l3 = List.length l1 →
  (λ it : A * B * C, it.1.1) <$> zip (zip l1 l2) l3 = l1
  ∧ (λ it : A * B * C, it.1.2) <$> zip (zip l1 l2) l3 = l2
  ∧ (λ it : A * B * C, it.2) <$> zip (zip l1 l2) l3 = l3.
Proof.
  revert l2 l3. induction l1 as [|x l1 IH]; intros [|y l2] [|z l3] H2 H3;
    try discriminate; [repeat split|].
  injection H2 as H2. injection H3 as H3.
  destruct (IH l2 l3 H2 H3) as (E1 & E2 & E3).
  repeat split; simpl; f_equal; assumption.
Qed.

Lemma dataset_wf_items self :
  dataset_wf self → self = dataset_of (transform self) (dataset_items self).
Proof.
  intros (Hids & Hmds & _). destruct self as [t paths ids mds].
  unfold dataset_of, dataset_items. cbn [transform image_paths image_ids metadata] in *.
  destruct (zip3_projections paths ids mds Hids Hmds) as (E1 & E2 & E3).
  rewrite E1, E2, E3. reflexivity.
Qed.

Lemma forallb_fmap_all {A B : Type} (P : B → bool) (g : A → B) (l : list A) :
  (∀ x, P (g x) = true) → forallb P (g <$> l) = true.
Proof.
  intros H. induction l as [|x l IH]; [reflexivity|].
  rewrite fmap_cons. cbn [forallb]. rewrite H, IH. reflexivity.
Qed.

Lemma collate_images_tensors {A : Type} (g : A → Tensor) (sh : list Z) (xs : list A) :
  (∀ x, shape (g x) = sh) → xs ≠ [] →
  collate_images ((λ x, AsTensor (g x)) <$> xs) = Ok (g <$> xs).
Proof.
  intros Hsh Hne. unfold collate_images.
  rewrite (map_result_fmap_Ok _ _ g) by (intros; reflexivity).
  destruct xs as [|x xs]; [congruence|].
  change (Ok (g <$> x :: xs) ≫= ?k) with (k (g <$> x :: xs)).
  cbv beta. rewrite fmap_cons at 1. cbv iota.
  rewrite forallb_fmap_all; [reflexivity|].
  intros y. apply bool_decide_eq_true. rewrite !Hsh. reflexivity.
Qed.

Definition sample_of (t : PILImage → Tensor) (it : PyVal * string * Dict string)
  : ImageValue * string * Dict string :=
  (AsTensor (item_tensor t it.1.1), it.1.2, it.2).

Lemma getitem_item t items i it :
  items !! i = Some it →
  outcome (getitem (dataset_of (Some t) items) (Z.of_nat i)) = Ok (sample_of t it).
Proof.
  intros H.
  assert (Hp : list_index (image_paths (dataset_of (Some t) items)) (Z.of_nat i) = Ok it.1.1)
    by (apply list_index_nat; cbn [dataset_of image_paths]; rewrite list_lookup_fmap, H; reflexivity).
  assert (Hi : list_index (image_ids (dataset_of (Some t) items)) (Z.of_nat i) = Ok it.1.2)
    by (apply list_index_nat; cbn [dataset_of image_ids]; rewrite list_lookup_fmap, H; reflexivity).
  assert (Hm : list_index (metadata (dataset_of (Some t) items)) (Z.of_nat i) = Ok it.2)
    by (apply list_index_nat; cbn [dataset_of metadata]; rewrite list_lookup_fmap, H; reflexivity).
  unfold sample_of, item_tensor.
  destruct (Image_open_RGB it.1.1) as [e|image] eqn:E.
  - rewrite (getitem_open_failed _ _ _ _ _ e Hp Hi Hm E). reflexivity.
  - rewrite (getitem_open_ok _ _ _ _ _ image Hp Hi Hm E). reflexivity.
Qed.

(** A batch of indices and the items at those indices. *)
Definition at_indices (items : list (PyVal * string * Dict string))
    (indices : list Z) (xs : list (PyVal * string * Dict string)) : Prop :=
  Forall2 (λ z it, ∃ i, z = Z.of_nat i ∧ items !! i = Some it) indices xs.

(** The state after the loop body has consumed the items [xs]. *)
Definition collect (t : PILImage → Tensor) (st : Collected)
    (xs : list (PyVal * string * Dict string)) : Collected :=
  {| embeddings_list := embeddings_list st ++ model ((λ it, item_tensor t it.1.1) <$> xs);
     image_ids_list := image_ids_list st ++ ((λ it, it.1.2) <$> xs);
     metadata_list := metadata_list st ++ ((λ it, it.2) <$> xs) |}.

Lemma result_bind_Ok {A B : Type} (a : A) (f : A → result B) : Ok a ≫= f = f a.
Proof. reflexivity. Qed.

Lemma sample_projections t (xs : list (PyVal * string * Dict string)) :
  (λ s : ImageValue * string * Dict string, s.1.1) <$> (sample_of t <$> xs)
  = (λ it, AsTensor (item_tensor t it.1.1)) <$> xs
  ∧ (λ s : ImageValue * string * Dict string, s.1.2) <$> (sample_of t <$> xs)
    = (λ it, it.1.2) <$> xs
  ∧ (λ s : ImageValue * string * Dict string, s.2) <$> (sample_of t <$> xs)
    = (λ it, it.2) <$> xs.
Proof. rewrite <- !list_fmap_compose. repeat split. Qed.

Lemma default_collate_samples t sh xs fs :
  (∀ image, shape (t image) = sh) → xs ≠ [] →
  (λ it : PyVal * string * Dict string, it.2) <$> xs = fields_dict <$> fs →
  default_collate (sample_of t <$> xs)
  = Ok ((λ it, item_tensor t it.1.1) <$> xs, (λ it, it.1.2) <$> xs, fields_columns fs).
Proof.
  intros Hsh Hne Hfs. unfold default_collate.
  destruct (sample_projections t xs) as (E1 & E2 & E3). rewrite E1, E2, E3.
  rewrite (collate_images_tensors (λ it, item_tensor t it.1.1) sh), result_bind_Ok;
    [|intros it; unfold item_tensor; destruct (Image_open_RGB _); apply Hsh|exact Hne].
  rewrite Hfs. destruct fs as [|x fs]; [destruct xs; [congruence|discriminate]|].
  rewrite collate_metadata_fields. reflexivity.
Qed.

Lemma embed_batch_fields st images image_ids fs :
  embed_batch st (images, image_ids, fields_columns fs)
  = Ok {| embeddings_list := embeddings_list st ++ model images;
          image_ids_list := image_ids_list st ++ image_ids;
          metadata_list := metadata_list st ++ (fields_dict <$> fs) |}.
Proof.
  unfold embed_batch.
  change (metadata_batch_size (fields_columns fs))
    with (Ok (A:=nat) (List.length (f_treatment <$> fs))).
  rewrite result_bind_Ok, length_fmap, uncollate_fields. reflexivity.
Qed.

Lemma embedding_step_items t sh items batch_size st indices xs :
  (∀ image, shape (t image) = sh) →
  Forall (λ it : PyVal * string * Dict string, it.2.*1 = metadata_keys) items →
  at_indices items indices xs → xs ≠ [] →
  outcome (embedding_step {| dl_dataset := dataset_of (Some t) items;
                             dl_batch_size := batch_size |} st indices)
  = Ok (collect t st xs).
Proof.
  intros Hsh Hkeys Hat Hne. unfold embedding_step, dataloader_fetch.
  cbn [dl_dataset].
  assert (Hsamples : outcome (map_py (getitem (dataset_of (Some t) items)) indices)
                     = Ok (sample_of t <$> xs)).
  { apply map_py_outcome, Forall2_fmap_r.
    eapply Forall2_impl; [exact Hat|]. intros z it (i & -> & Hi).
    apply getitem_item, Hi. }
  assert (Hxs : Forall (λ md : Dict string, md.*1 = metadata_keys) ((λ it, it.2) <$> xs)).
  { apply Forall_fmap. apply Forall_forall. intros it Hit.
    apply list_elem_of_lookup in Hit as [j Hj].
    destruct (Forall2_lookup_r _ _ _ _ _ Hat Hj) as (z & _ & i & _ & Hi).
    apply (proj1 (Forall_lookup _ _) Hkeys i it Hi). }
  apply metadata_fields in Hxs as [fs Hfs].
  rewrite !outcome_bind, Hsamples, outcome_lift.
  rewrite (default_collate_samples t sh xs fs Hsh Hne Hfs), outcome_lift.
  rewrite embed_batch_fields, <- Hfs. reflexivity.
Qed.

Lemma for_each_outcome {A S : Type} (body : S → A → Py S) (step : S → list (PyVal * string * Dict string) → S)
    (R : A → list (PyVal * string * Dict string) → Prop) xs ys s :
  (∀ s x y, R x y → outcome (body s x) = Ok (step s y)) →
  Forall2 R xs ys →
  outcome (for_each xs body s) = Ok (fold_left step ys s).
Proof.
  intros Hbody H. revert s. induction H as [|x y xs ys Hxy _ IH]; intros s; [reflexivity|].
  cbn [for_each fold_left]. rewrite outcome_bind, (Hbody s x y Hxy). apply IH.
Qed.

Lemma fold_collect t xss st :
  fold_left (collect t) xss st
  = {| embeddings_list :=
         embeddings_list st
         ++ concat ((λ xs, model ((λ it, item_tensor t it.1.1) <$> xs)) <$> xss);
       image_ids_list := image_ids_list st ++ ((λ it, it.1.2) <$> concat xss);
       metadata_list := metadata_list st ++ ((λ it, it.2) <$> concat xss) |}.
Proof.
  revert st. induction xss as [|xs xss IH]; intros st.
  - simpl. rewrite !app_nil_r. destruct st; reflexivity.
  - cbn [fold_left]. rewrite IH. unfold collect.
    cbn [embeddings_list image_ids_list metadata_list].
    rewrite fmap_cons. cbn [concat]. rewrite !fmap_app, <- !app_assoc. reflexivity.
Qed.

Lemma at_indices_all items :
  at_indices items (Z.of_nat <$> seq 0 (List.length items)) items.
Proof.
  unfold at_indices. apply Forall2_fmap_l, Forall2_same_length_lookup_2.
  - rewrite length_seq. reflexivity.
  - intros i j it Hj Hit. apply lookup_seq in Hj as [-> _]. exists i. auto.
Qed.

Lemma Forall2_and_r {A B : Type} (P : A → B → Prop) (Q : B → Prop) l k :
  Forall2 P l k → Forall Q k → Forall2 (λ x y, P x y ∧ Q y) l k.
Proof.
  induction 1 as [|x y l k Hxy _ IH]; intros HQ; [constructor|].
  apply Forall_cons in HQ as [Hy HQ]. constructor; auto.
Qed.

Lemma concat_model_length (batches : list (list Tensor)) :
  (∀ batch, List.length (model batch) = List.length batch) →
  List.length (concat (model <$> batches)) = List.length (concat batches).
Proof.
  intros H. induction batches as [|b bs IH]; [reflexivity|].
  rewrite fmap_cons. cbn [concat]. rewrite !length_app, H, IH. reflexivity.
Qed.

Lemma concat_model_pointwise (f : Tensor → list F) (batches : list (list Tensor)) :
  (∀ batch, model batch = f <$> batch) →
  concat (model <$> batches) = f <$> concat batches.
Proof.
  intros H. induction batches as [|b bs IH]; [reflexivity|].
  rewrite fmap_cons. cbn [concat]. rewrite fmap_app, H, IH. reflexivity.
Qed.

(** C2: for every dataset of N Indexed Items and every batch size of at
    least 1, the runner returns the identifiers and the metadata of the
    items in their input order, none dropped, merged or reordered, and
    the vectors the network returns for the consecutive batches of their
    tensors, one per item: row [i] holds the identifier, the metadata
    and the vector of item [i]. *)
Theorem embedding_rows_in_order self t sh batch_size :
  dataset_wf self →
  transform self = Some t →
  (∀ image, shape (t image) = sh) →
  (∀ batch, List.length (model batch) = List.length batch) →
  1 ≤ batch_size →
  ∃ dl st,
    DataLoader_new self batch_size = Ok dl
    ∧ outcome (embedding_loop dl) = Ok st
    ∧ image_ids_list st = image_ids self
    ∧ metadata_list st = metadata self
    ∧ embeddings_list st
      = concat (model <$> batch_sampler (Z.to_nat batch_size)
                            (item_tensor t <$> image_paths self) [])
    ∧ List.length (embeddings_list st) = List.length (image_paths self)
    ∧ (∀ f, (∀ batch, model batch = f <$> batch) →
            embeddings_list st = (λ image_path, f (item_tensor t image_path))
                                   <$> image_paths self).
Proof.
  intros Hwf Ht Hsh Hmodel HB.
  pose proof (dataset_wf_items self Hwf) as Hself. rewrite Ht in Hself.
  destruct Hwf as (_ & _ & Hkeys).
  set (items := dataset_items self) in *. clearbody items. subst self.
  cbn [dataset_of metadata image_paths image_ids] in *.
  apply Forall_fmap in Hkeys.
  exists {| dl_dataset := dataset_of (Some t) items; dl_batch_size := batch_size |}.
  set (xss := batch_sampler (Z.to_nat batch_size) items []).
  exists (fold_left (collect t) xss
            {| embeddings_list := []; image_ids_list := []; metadata_list := [] |}).
  assert (Hconcat : concat xss = items) by apply (batch_sampler_concat _ items []).
  assert (Hemb : concat ((λ xs, model ((λ it, item_tensor t it.1.1) <$> xs)) <$> xss)
                 = concat (model <$> batch_sampler (Z.to_nat batch_size)
                             (item_tensor t <$> ((λ it, it.1.1) <$> items)) [])).
  { rewrite <- list_fmap_compose, batch_sampler_fmap_nil, <- list_fmap_compose.
    reflexivity. }
  split.
  { unfold DataLoader_new.
    replace (batch_size <=? 0) with false by (symmetry; apply Z.leb_gt; lia).
    reflexivity. }
  split.
  { unfold embedding_loop, dataloader_batches.
    cbn [dl_dataset dl_batch_size dataset_of image_paths].
    rewrite length_fmap, outcome_bind.
    rewrite (for_each_outcome _ (collect t)
               (λ indices xs, at_indices items indices xs ∧ xs ≠ [])
               _ xss).
    - rewrite outcome_bind. reflexivity.
    - intros st indices xs [Hat Hne].
      apply (embedding_step_items t sh items batch_size st indices xs Hsh Hkeys Hat Hne).
    - apply Forall2_and_r.
      + apply batch_sampler_Forall2; [apply at_indices_all|constructor].
      + apply batch_sampler_nonempty. lia. }
  rewrite fold_collect. cbn [embeddings_list image_ids_list metadata_list app].
  rewrite Hconcat, Hemb.
  split; [reflexivity|]. split; [reflexivity|]. split; [reflexivity|]. split.
  - rewrite concat_model_length by exact Hmodel.
    rewrite batch_sampler_concat. cbn [app]. rewrite length_fmap. reflexivity.
  - intros f Hf. rewrite (concat_model_pointwise f) by exact Hf.
    rewrite batch_sampler_concat. cbn [app]. rewrite <- list_fmap_compose. reflexivity.
Qed.

(** ** The Result Writer *)

Lemma np_array_matrix (rows : list (list F)) k :
  rows ≠ [] → Forall (λ r, List.length r = k) rows →
  np_array rows = Ok {| nd_shape := [Z.of_nat (List.length rows); Z.of_nat k];
                        nd_rows := rows |}.
Proof.
  intros Hne Hk. destruct rows as [|r0 rs]; [congruence|].
  unfold np_array. pose proof (Forall_inv Hk) as H0. cbv beta in H0. rewrite H0.
  replace (forallb _ (r0 :: rs)) with true; [reflexivity|].
  symmetry. clear Hne H0. induction Hk as [|r rs' Hr _ IH]; [reflexivity|].
  cbn [forallb]. rewrite Hr, Nat.eqb_refl, IH. reflexivity.
Qed.

Lemma list_index_second {A : Type} (a b : A) : list_index [a; b] 1 = Ok b.
Proof. reflexivity. Qed.

Lemma image_id_not_dim k : existsb (String.eqb "image_id") (dim_columns k) = false.
Proof.
  unfold dim_columns. induction (seq 0 k) as [|i l IH]; [reflexivity|].
  rewrite fmap_cons. cbn [existsb]. rewrite IH. reflexivity.
Qed.

Lemma csv_lines_rows (rows : list EmbeddingRow) :
  (λ row : list Cell, cell_str <$> row)
    <$> zip_with (λ v row, CellStr v :: row) ((λ r, r.1.1) <$> rows)
          ((λ row : list F, CellFloat <$> row) <$> ((λ r, r.1.2) <$> rows))
  = (λ r, r.1.1 :: (float_repr <$> r.1.2)) <$> rows.
Proof.
  induction rows as [|r rows IH]; [reflexivity|].
  rewrite !fmap_cons. cbn [zip_with]. rewrite fmap_cons, IH.
  f_equal. cbv beta. rewrite fmap_cons. cbn [cell_str]. f_equal.
  rewrite <- list_fmap_compose. reflexivity.
Qed.

Lemma map_result_enumerate {A B C : Type} (g : nat * B → result C) (f : A → B)
    (h : A → C) (xs : list A) start :
  (∀ i x, xs !! i = Some x → g ((start + i)%nat, f x) = Ok (h x)) →
  map_result g (zip (seq start (List.length xs)) (f <$> xs)) = Ok (h <$> xs).
Proof.
  revert start. induction xs as [|x xs IH]; intros start H; [reflexivity|].
  cbn [List.length seq]. rewrite !fmap_cons. cbn [zip_with map_result].
  rewrite <- (Nat.add_0_r start) at 1. rewrite (H 0%nat x eq_refl).
  rewrite IH; [reflexivity|].
  intros i y Hy. replace (S start + i)%nat with (start + S i)%nat by lia.
  apply (H (S i)). exact Hy.
Qed.

Lemma metadata_rows_of (rows : list EmbeddingRow) :
  metadata_rows (collected_of rows)
  = Ok ((λ r, dict_update [("image_id", r.1.1)] r.2) <$> rows).
Proof.
  unfold metadata_rows, collected_of. cbn [metadata_list image_ids_list].
  rewrite length_fmap. apply map_result_enumerate.
  intros i r Hr. cbn [fst snd Nat.add].
  rewrite (list_index_nat _ i r.1.1) by (rewrite list_lookup_fmap, Hr; reflexivity).
  reflexivity.
Qed.


(** The loader's length is the number of batches one pass visits. *)
Lemma dataloader_len_batches dl :
  0 < dl_batch_size dl →
  dataloader_len dl = Z.of_nat (List.length (dataloader_batches dl)).
Proof.
  intros HB. unfold dataloader_len, dataloader_batches, dataset_len.
  rewrite batch_sampler_length by (simpl; lia). cbn [List.length Nat.add].
  rewrite length_fmap, length_seq, Nat2Z.inj_div, Nat2Z.inj_sub by lia.
  rewrite Nat2Z.inj_add, Z2Nat.id by lia. reflexivity.
Qed.

(** * Further properties of the notebook's code *)

(** ** The constructor: sizes, the cap, skipped records *)

Lemma dataset_init_run records prefix t max_images :
  dataset_init records prefix t max_images
  = match init_loop prefix max_images records
            {| transform := t; image_paths := []; image_ids := []; metadata := [] |} with
    | Ok self =>
      MkPy (printed (print_sample self))
           (match outcome (print_sample self) with
            | Ok _ => Ok self
            | Raise e => Raise e
            end)
    | Raise e => MkPy [] (Raise e)
    end.
Proof.
  unfold dataset_init. destruct (init_loop _ _ _ _) as [self|e]; [|reflexivity].
  rewrite bind_lift_Ok. unfold mbind, Py_bind, mret, Py_ret.
  destruct (print_sample self) as [lines [[]|e]]; simpl; rewrite ?app_nil_r; reflexivity.
Qed.

Lemma cap_take_length {A : Type} max_images (l : list A) :
  List.length (cap_take max_images l)
  = match max_images with
    | None => List.length l
    | Some m => if m =? 0 then List.length l
                else Nat.min (Z.to_nat m) (List.length l)
    end.
Proof.
  unfold cap_take. destruct max_images as [m|]; [|reflexivity].
  destruct (m =? 0); [reflexivity|apply length_take].
Qed.

(** X1: the length of a constructed dataset is the number of resolvable
    records when there is no cap or the cap is [0], and the smaller of
    that number and the cap otherwise (no item for a negative cap); it
    never exceeds the number of records. *)
Theorem dataset_len_bounds records prefix t max_images ds :
  outcome (dataset_init records prefix t max_images) = Ok ds →
  let resolvable_count := Z.of_nat (List.length (List.filter (resolvable prefix) records)) in
  dataset_len ds
  = match max_images with
    | None => resolvable_count
    | Some m => if m =? 0 then resolvable_count else Z.min (Z.max 0 m) resolvable_count
    end
  ∧ dataset_len ds ≤ resolvable_count
  ∧ dataset_len ds ≤ Z.of_nat (List.length records).
Proof.
  intros Hds count.
  apply dataset_init_items in Hds as (items & -> & Hitems).
  apply Forall2_length in Hitems.
  assert (Hlen : dataset_len (dataset_of t items)
                 = Z.of_nat (List.length (accepted prefix max_images records))).
  { unfold dataset_len, dataset_of. cbn [image_paths]. rewrite length_fmap, Hitems.
    reflexivity. }
  assert (Hfilter : (List.length (List.filter (resolvable prefix) records)
                     ≤ List.length records)%nat).
  { apply sublist_length, filter_sublist. }
  rewrite Hlen. unfold accepted. rewrite cap_take_length. subst count.
  destruct max_images as [m|]; [destruct (m =? 0)|]; lia.
Qed.

(** X2: once a positive cap is reached the loop breaks: the records
    that follow are not examined, so appending any records, even ones
    that would raise, changes neither the result nor what is printed. *)
Theorem records_after_cap_ignored records rest prefix t m :
  0 < m →
  m ≤ Z.of_nat (List.length (List.filter (resolvable prefix) records)) →
  dataset_init (records ++ rest) prefix t (Some m)
  = dataset_init records prefix t (Some m).
Proof.
  intros Hm Hcap. rewrite !dataset_init_run, !init_loop_spec.
  cbn [image_paths List.length]. rewrite !cap_left_0. unfold cap_take.
  replace (m =? 0) with false by (symmetry; apply Z.eqb_neq; lia).
  rewrite List.filter_app, take_app_le by lia. reflexivity.
Qed.

(** X3: a record that is not resolvable is inert wherever it stands: the
    constructor returns and prints the same with and without it, whatever
    its other fields hold.  A record is not resolvable when its path is
    missing, [None], empty or zero, whatever the filesystem says. *)
Theorem unresolvable_record_inert before record after prefix t max_images :
  resolvable prefix record = false →
  dataset_init (before ++ record :: after) prefix t max_images
  = dataset_init (before ++ after) prefix t max_images.
Proof.
  intros Hres. rewrite !dataset_init_run, !init_loop_spec.
  rewrite !List.filter_app. cbn [List.filter]. rewrite Hres. reflexivity.
Qed.

Lemma falsy_path_unresolvable prefix (record : DatasetRecord) :
  record !! (prefix +:+ "/full_path") = None
  ∨ record !! (prefix +:+ "/full_path") = Some PNone
  ∨ record !! (prefix +:+ "/full_path") = Some (PStr "")
  ∨ record !! (prefix +:+ "/full_path") = Some (PBytes [])
  ∨ record !! (prefix +:+ "/full_path") = Some (PInt 0) →
  resolvable prefix record = false.
Proof.
  unfold resolvable, record_get.
  intros [H|[H|[H|[H|H]]]]; rewrite H; reflexivity.
Qed.

(** X4: the constructor prints nothing when it raises and nothing when
    it accepts no record; otherwise it prints the heading and the
    treatment, plate, well, channel and ark of the first item. *)
Theorem dataset_init_printed records prefix t max_images :
  match outcome (dataset_init records prefix t max_images) with
  | Raise _ => printed (dataset_init records prefix t max_images) = []
  | Ok ds =>
    match metadata ds with
    | [] => printed (dataset_init records prefix t max_images) = []
    | m0 :: _ =>
      ∃ x, m0 = fields_dict x
         ∧ printed (dataset_init records prefix t max_images)
           = ["Sample metadata:"; "  Treatment: " +:+ f_treatment x;
              "  Plate: " +:+ f_plate x; "  Well: " +:+ f_well x;
              "  Channel: " +:+ f_channel x; "  ARK ID: " +:+ f_ark x]
    end
  end.
Proof.
  rewrite dataset_init_run, init_loop_spec. cbn [image_paths List.length].
  rewrite cap_left_0. fold (accepted prefix max_images records).
  destruct (map_result (index_item prefix) (accepted prefix max_images records))
    as [items|e] eqn:Hitems; [|reflexivity].
  cbn [fmap result_fmap].
  set (self := extend {| transform := t; image_paths := []; image_ids := [];
                         metadata := [] |} items).
  assert (Hkeys : Forall (λ md : Dict string, md.*1 = metadata_keys) (metadata self))
    by (eapply map_index_item_keys, Hitems).
  rewrite (print_sample_ok self Hkeys). cbn [outcome printed].
  unfold print_sample. destruct (metadata self) as [|m0 mds]; [reflexivity|].
  apply Forall_cons in Hkeys as [Hm0 _].
  apply metadata_keys_inv in Hm0 as (v1 & v2 & v3 & v4 & v5 & v6 & v7 & ->).
  exists {| f_treatment := v1; f_plate := v2; f_well := v3; f_channel := v4;
            f_hpa_antibody_id := v5; f_ensembl_id := v6; f_ark := v7 |}.
  split; reflexivity.
Qed.

(** ** Identifiers *)

Lemma rfind_sep_none p : sep ∉ p → rfind_sep p = -1.
Proof.
  intros H. destruct (rfind_sep_spec p) as [[Hr _]|(dir & rest & -> & _ & _)];
    [exact Hr|].
  exfalso. apply H, elem_of_app. right. apply elem_of_cons. left. reflexivity.
Qed.

Lemma rfind_sep_last dir name :
  sep ∉ name → rfind_sep (dir ++ sep :: name) = Z.of_nat (List.length dir).
Proof.
  intros H. induction dir as [|c dir IH].
  - cbn [app rfind_sep List.length]. rewrite (rfind_sep_none name H). reflexivity.
  - cbn [app rfind_sep List.length]. rewrite IH.
    replace (0 <=? Z.of_nat (List.length dir)) with true by (symmetry; apply Z.leb_le; lia).
    lia.
Qed.

Lemma basename_bytes_last dir name :
  sep ∉ name → basename_bytes (dir ++ sep :: name) = name.
Proof.
  intros H. unfold basename_bytes. rewrite (rfind_sep_last dir name H).
  replace (Z.to_nat (Z.of_nat (List.length dir) + 1)) with (List.length (dir ++ [sep]))
    by (rewrite length_app; simpl; lia).
  rewrite (cons_middle sep dir name), app_assoc. apply drop_app_length.
Qed.

Lemma basename_bytes_plain name : sep ∉ name → basename_bytes name = name.
Proof. intros H. unfold basename_bytes. rewrite (rfind_sep_none name H). reflexivity. Qed.

(** X5: the identifier depends only on what follows the last ['/'] of
    the path: two images with the same file name in different
    directories get the same identifier, a path with no ['/'] is its own
    identifier, and a path ending in ['/'] gets the empty identifier. *)
Theorem image_id_ignores_directory (dir name : list byte) :
  sep ∉ name →
  record_image_id (PBytes (dir ++ sep :: name)) = bytes_decode name
  ∧ record_image_id (PStr (string_of_list_byte (dir ++ sep :: name)))
    = Ok (string_of_list_byte name)
  ∧ record_image_id (PBytes name) = bytes_decode name
  ∧ record_image_id (PStr (string_of_list_byte name)) = Ok (string_of_list_byte name).
Proof.
  intros H. unfold record_image_id, os_path_basename.
  rewrite !list_byte_of_string_of_list_byte.
  rewrite (basename_bytes_last dir name H), (basename_bytes_plain name H).
  repeat split.
Qed.

Lemma record_image_id_no_sep image_path image_id :
  record_image_id image_path = Ok image_id → sep ∉ list_byte_of_string image_id.
Proof.
  unfold record_image_id, os_path_basename.
  destruct image_path as [|s|b|n]; simpl; try discriminate.
  - intros H. injection H as <-. rewrite list_byte_of_string_of_list_byte.
    destruct (basename_bytes_spec (list_byte_of_string s)) as (_ & _ & H & _). exact H.
  - unfold bytes_decode. destruct (utf8_valid _); [|discriminate].
    intros H. injection H as <-. rewrite list_byte_of_string_of_list_byte.
    destruct (basename_bytes_spec b) as (_ & _ & H & _). exact H.
Qed.

(** X6: no identifier of a constructed dataset holds a ['/']. *)
Theorem image_ids_no_separator records prefix t max_images ds :
  outcome (dataset_init records prefix t max_images) = Ok ds →
  Forall (λ image_id, sep ∉ list_byte_of_string image_id) (image_ids ds).
Proof.
  intros Hds. apply dataset_init_items in Hds as (items & -> & Hitems).
  cbn [dataset_of image_ids]. apply Forall_fmap, Forall_forall. intros it Hit.
  apply list_elem_of_lookup in Hit as [i Hi].
  destruct (Forall2_lookup_r _ _ _ _ _ Hitems Hi) as (r & _ & Hr).
  apply index_item_path in Hr as (_ & Hid & _).
  apply (record_image_id_no_sep _ _ Hid).
Qed.

(** ** The accessor: indices *)

Lemma list_index_negative {A : Type} (l : list A) idx :
  - Z.of_nat (List.length l) ≤ idx < 0 →
  list_index l idx = list_index l (idx + Z.of_nat (List.length l)).
Proof.
  intros H. unfold list_index. cbv zeta.
  replace (idx <? 0) with true by (symmetry; apply Z.ltb_lt; lia).
  replace (idx + Z.of_nat (List.length l) <? 0) with false
    by (symmetry; apply Z.ltb_ge; lia).
  cbv iota.
  replace (idx + Z.of_nat (List.length l) <? 0) with false
    by (symmetry; apply Z.ltb_ge; lia).
  reflexivity.
Qed.

Lemma list_index_out_of_range {A : Type} (l : list A) idx :
  idx < - Z.of_nat (List.length l) ∨ Z.of_nat (List.length l) ≤ idx →
  list_index l idx = Raise IndexError.
Proof.
  intros H. unfold list_index. cbv zeta.
  destruct (idx <? 0) eqn:E; [apply Z.ltb_lt in E|apply Z.ltb_ge in E].
  - replace (idx + Z.of_nat (List.length l) <? 0) with true
      by (symmetry; apply Z.ltb_lt; lia).
    reflexivity.
  - rewrite (proj2 (Z.ltb_ge idx 0) E).
    rewrite (lookup_ge_None_2 l (Z.to_nat idx)) by lia. reflexivity.
Qed.


(** ** The embedding loop: what it prints and returns *)

(** The line the accessor prints for an image path: the error of the
    decoder, if it fails. *)
Definition error_lines (image_path : PyVal) : list string :=
  match Image_open_RGB image_path with
  | inl e => ["Error loading image " +:+ py_str image_path +:+ ": " +:+ e]
  | inr _ => []
  end.

Lemma bind_MkPy_Ok {A B : Type} (lines : list string) (a : A) (f : A → Py B) :
  MkPy lines (Ok a) ≫= f = MkPy (lines ++ printed (f a)) (outcome (f a)).
Proof. reflexivity. Qed.

Lemma getitem_item_run t items i it :
  items !! i = Some it →
  getitem (dataset_of (Some t) items) (Z.of_nat i)
  = MkPy (error_lines it.1.1) (Ok (sample_of t it)).
Proof.
  intros H.
  assert (Hp : list_index (image_paths (dataset_of (Some t) items)) (Z.of_nat i) = Ok it.1.1)
    by (apply list_index_nat; cbn [dataset_of image_paths]; rewrite list_lookup_fmap, H; reflexivity).
  assert (Hi : list_index (image_ids (dataset_of (Some t) items)) (Z.of_nat i) = Ok it.1.2)
    by (apply list_index_nat; cbn [dataset_of image_ids]; rewrite list_lookup_fmap, H; reflexivity).
  assert (Hm : list_index (metadata (dataset_of (Some t) items)) (Z.of_nat i) = Ok it.2)
    by (apply list_index_nat; cbn [dataset_of metadata]; rewrite list_lookup_fmap, H; reflexivity).
  unfold sample_of, item_tensor, error_lines.
  destruct (Image_open_RGB it.1.1) as [e|image] eqn:E.
  - rewrite (getitem_open_failed _ _ _ _ _ e Hp Hi Hm E). reflexivity.
  - rewrite (getitem_open_ok _ _ _ _ _ image Hp Hi Hm E). reflexivity.
Qed.

Lemma map_py_run {A B C : Type} (f : A → Py B) (R : A → C → Prop)
    (lines : C → list string) (g : C → B) xs ys :
  (∀ x y, R x y → f x = MkPy (lines y) (Ok (g y))) →
  Forall2 R xs ys →
  map_py f xs = MkPy (concat (lines <$> ys)) (Ok (g <$> ys)).
Proof.
  intros Hf. induction 1 as [|x y xs ys Hxy _ IH]; [reflexivity|].
  cbn [map_py]. rewrite (Hf x y Hxy), bind_MkPy_Ok, IH, bind_MkPy_Ok.
  rewrite !fmap_cons. cbn [concat printed outcome mret Py_ret].
  rewrite app_nil_r. reflexivity.
Qed.

Lemma embedding_step_run t sh items batch_size st indices xs :
  (∀ image, shape (t image) = sh) →
  Forall (λ it : PyVal * string * Dict string, it.2.*1 = metadata_keys) items →
  at_indices items indices xs → xs ≠ [] →
  embedding_step {| dl_dataset := dataset_of (Some t) items;
                    dl_batch_size := batch_size |} st indices
  = MkPy (concat ((λ it, error_lines it.1.1) <$> xs)) (Ok (collect t st xs)).
Proof.
  intros Hsh Hkeys Hat Hne. unfold embedding_step, dataloader_fetch.
  cbn [dl_dataset].
  rewrite (map_py_run _ (λ z it, ∃ i, z = Z.of_nat i ∧ items !! i = Some it)
             (λ it, error_lines it.1.1) (sample_of t) indices xs);
    [|intros z it (i & -> & Hi); apply getitem_item_run, Hi|exact Hat].
  assert (Hxs : Forall (λ md : Dict string, md.*1 = metadata_keys) ((λ it, it.2) <$> xs)).
  { apply Forall_fmap. apply Forall_forall. intros it Hit.
    apply list_elem_of_lookup in Hit as [j Hj].
    destruct (Forall2_lookup_r _ _ _ _ _ Hat Hj) as (z & _ & i & _ & Hi).
    apply (proj1 (Forall_lookup _ _) Hkeys i it Hi). }
  apply metadata_fields in Hxs as [fs Hfs].
  rewrite bind_MkPy_Ok, (default_collate_samples t sh xs fs Hsh Hne Hfs).
  cbn [lift printed outcome]. rewrite bind_MkPy_Ok, embed_batch_fields, <- Hfs.
  cbn [lift printed outcome]. rewrite !app_nil_r. reflexivity.
Qed.

Lemma for_each_run {A S C : Type} (body : S → A → Py S) (step : S → C → S)
    (lines : C → list string) (R : A → C → Prop) xs ys s :
  (∀ s x y, R x y → body s x = MkPy (lines y) (Ok (step s y))) →
  Forall2 R xs ys →
  for_each xs body s = MkPy (concat (lines <$> ys)) (Ok (fold_left step ys s)).
Proof.
  intros Hbody H. revert s. induction H as [|x y xs ys Hxy _ IH]; intros s; [reflexivity|].
  cbn [for_each fold_left]. rewrite (Hbody s x y Hxy), bind_MkPy_Ok, IH.
  rewrite fmap_cons. reflexivity.
Qed.

Lemma concat_batches {A B : Type} (lines : A → list B) (xss : list (list A)) :
  concat ((λ xs, concat (lines <$> xs)) <$> xss) = concat (lines <$> concat xss).
Proof.
  induction xss as [|xs xss IH]; [reflexivity|].
  rewrite fmap_cons. cbn [concat]. rewrite fmap_app, concat_app, IH. reflexivity.
Qed.

(** The whole run of the embedding cell on a dataset of items. *)
Lemma embedding_loop_run t sh items batch_size :
  (∀ image, shape (t image) = sh) →
  Forall (λ it : PyVal * string * Dict string, it.2.*1 = metadata_keys) items →
  1 ≤ batch_size →
  let final :=
    fold_left (collect t) (batch_sampler (Z.to_nat batch_size) items [])
      {| embeddings_list := []; image_ids_list := []; metadata_list := [] |} in
  embedding_loop {| dl_dataset := dataset_of (Some t) items;
                    dl_batch_size := batch_size |}
  = MkPy (concat ((λ it, error_lines it.1.1) <$> items)
          ++ ["✅ Generated " +:+ int_str (Z.of_nat (List.length (embeddings_list final)))
              +:+ " embeddings"])
         (Ok final).
Proof.
  intros Hsh Hkeys HB final. unfold embedding_loop, dataloader_batches.
  cbn [dl_dataset dl_batch_size dataset_of image_paths]. rewrite length_fmap.
  rewrite (for_each_run _ (collect t) (λ xs, concat ((λ it, error_lines it.1.1) <$> xs))
             (λ indices xs, at_indices items indices xs ∧ xs ≠ [])
             _ (batch_sampler (Z.to_nat batch_size) items [])).
  - rewrite bind_MkPy_Ok. fold final.
    rewrite concat_batches, (batch_sampler_concat _ items []). reflexivity.
  - intros st indices xs [Hat Hne].
    apply (embedding_step_run t sh items batch_size st indices xs Hsh Hkeys Hat Hne).
  - apply Forall2_and_r.
    + apply batch_sampler_Forall2; [apply at_indices_all|constructor].
    + apply batch_sampler_nonempty. lia.
Qed.

Lemma dataset_wf_view self t :
  dataset_wf self → transform self = Some t →
  ∃ items, self = dataset_of (Some t) items
         ∧ Forall (λ it : PyVal * string * Dict string, it.2.*1 = metadata_keys) items.
Proof.
  intros Hwf Ht. pose proof (dataset_wf_items self Hwf) as Hself. rewrite Ht in Hself.
  destruct Hwf as (_ & _ & Hkeys). exists (dataset_items self). split; [exact Hself|].
  rewrite Hself in Hkeys. cbn [dataset_of metadata] in Hkeys.
  apply Forall_fmap in Hkeys. exact Hkeys.
Qed.

Lemma collected_length {A : Type} (g : A → Tensor) (xss : list (list A)) :
  (∀ batch, List.length (model batch) = List.length batch) →
  List.length (concat ((λ xs, model (g <$> xs)) <$> xss)) = List.length (concat xss).
Proof.
  intros H. induction xss as [|xs xss IH]; [reflexivity|].
  rewrite fmap_cons. cbn [concat]. rewrite !length_app, H, length_fmap, IH. reflexivity.
Qed.

Lemma collected_pointwise {A : Type} (f : Tensor → list F) (g : A → Tensor)
    (xss : list (list A)) :
  (∀ batch, model batch = f <$> batch) →
  concat ((λ xs, model (g <$> xs)) <$> xss) = (λ x, f (g x)) <$> concat xss.
Proof.
  intros H. induction xss as [|xs xss IH]; [reflexivity|].
  rewrite fmap_cons. cbn [concat]. rewrite fmap_app, H, IH, <- list_fmap_compose.
  reflexivity.
Qed.

(** X8: the embedding cell prints one error line for each image that
    does not decode, in item order, and then the count of embeddings,
    which is the length of the dataset: images replaced by the
    placeholder are counted. *)
Theorem embedding_loop_printed self t sh batch_size :
  dataset_wf self →
  transform self = Some t →
  (∀ image, shape (t image) = sh) →
  (∀ batch, List.length (model batch) = List.length batch) →
  1 ≤ batch_size →
  printed (embedding_loop {| dl_dataset := self; dl_batch_size := batch_size |})
  = concat (error_lines <$> image_paths self)
    ++ ["✅ Generated " +:+ int_str (dataset_len self) +:+ " embeddings"].
Proof.
  intros Hwf Ht Hsh Hmodel HB.
  destruct (dataset_wf_view self t Hwf Ht) as (items & -> & Hkeys).
  rewrite (embedding_loop_run t sh items batch_size Hsh Hkeys HB).
  cbn [printed]. rewrite fold_collect. cbn [embeddings_list app].
  rewrite (collected_length _ _ Hmodel), (batch_sampler_concat _ items []).
  unfold dataset_len. cbn [dataset_of image_paths app].
  rewrite length_fmap, <- list_fmap_compose. reflexivity.
Qed.

(** X9: when the network acts on each tensor of a batch separately, the
    batch size changes nothing: the embedding cell returns the same lists
    and prints the same lines for any two batch sizes. *)
Theorem batch_size_irrelevant self t sh f batch_size1 batch_size2 :
  dataset_wf self →
  transform self = Some t →
  (∀ image, shape (t image) = sh) →
  (∀ batch, model batch = f <$> batch) →
  1 ≤ batch_size1 → 1 ≤ batch_size2 →
  embedding_loop {| dl_dataset := self; dl_batch_size := batch_size1 |}
  = embedding_loop {| dl_dataset := self; dl_batch_size := batch_size2 |}.
Proof.
  intros Hwf Ht Hsh Hf HB1 HB2.
  destruct (dataset_wf_view self t Hwf Ht) as (items & -> & Hkeys).
  rewrite (embedding_loop_run t sh items batch_size1 Hsh Hkeys HB1).
  rewrite (embedding_loop_run t sh items batch_size2 Hsh Hkeys HB2).
  rewrite !fold_collect. cbn [embeddings_list image_ids_list metadata_list app].
  rewrite !(collected_pointwise f _ _ Hf), !(batch_sampler_concat _ items []).
  reflexivity.
Qed.

Lemma filter_none {A : Type} (P : A → bool) (l : list A) :
  Forall (λ x, P x = false) l → List.filter P l = [].
Proof. induction 1 as [|x l Hx _ IH]; simpl; [|rewrite Hx]; auto. Qed.


(** ** The writer cell and the whole pipeline *)

Lemma result_writer_rows (rows : list EmbeddingRow) (k : nat) :
  rows ≠ [] →
  Forall (λ r : EmbeddingRow, List.length r.1.2 = k) rows →
  result_writer (collected_of rows)
  = MkPy ["✅ Embeddings saved to: ./densenet_embeddings/image_embeddings.tsv"]
         (Ok ({| csv_sep := tab; csv_header := "image_id" :: dim_columns k;
                 csv_lines := (λ r, r.1.1 :: (float_repr <$> r.1.2)) <$> rows |},
              (λ r, dict_update [("image_id", r.1.1)] r.2) <$> rows)).
Proof.
  intros Hne Hk. unfold result_writer. rewrite metadata_rows_of.
  unfold collected_of. cbn [embeddings_list image_ids_list].
  rewrite (np_array_matrix _ k), bind_lift_Ok;
    [|destruct rows; [congruence|discriminate]|apply Forall_fmap, Hk].
  cbn [nd_shape].
  rewrite list_index_second, bind_lift_Ok, Nat2Z.id. fold (dim_columns k).
  unfold DataFrame_new. cbn [nd_shape nd_rows].
  unfold dim_columns at 1. rewrite length_fmap, length_seq, Z.eqb_refl. fold (dim_columns k).
  rewrite bind_lift_Ok.
  unfold DataFrame_insert0. cbn [df_columns df_rows].
  rewrite image_id_not_dim, !length_fmap, Nat.eqb_refl. cbn [negb].
  rewrite bind_lift_Ok. unfold to_csv. cbn [df_columns df_rows].
  rewrite csv_lines_rows, bind_lift_Ok. reflexivity.
Qed.

Lemma zip3_zip_with {A B C D : Type} (f : A → B → D) (l1 : list A) (l2 : list B)
    (l3 : list C) :
  List.length l2 = List.length l1 → List.length l3 = List.length l1 →
  (λ r : A * B * C, f r.1.1 r.1.2) <$> zip (zip l1 l2) l3 = zip_with f l1 l2.
Proof.
  revert l2 l3. induction l1 as [|x l1 IH]; intros [|y l2] [|z l3] H2 H3;
    try discriminate; [reflexivity|].
  injection H2 as H2. injection H3 as H3. simpl. f_equal. apply (IH l2 l3 H2 H3).
Qed.

Lemma collected_uniform {A : Type} (g : A → Tensor) (k : nat) (xss : list (list A)) :
  (∀ batch, Forall (λ v, List.length v = k) (model batch)) →
  Forall (λ v, List.length v = k) (concat ((λ xs, model (g <$> xs)) <$> xss)).
Proof.
  intros H. induction xss as [|xs xss IH]; [constructor|].
  rewrite fmap_cons. cbn [concat]. apply Forall_app. split; [apply H|exact IH].
Qed.

(** X11: the cells compose.  When the accepted records are decodable
    and there is at least one, the transform has a fixed output shape
    and the network returns one k-dimensional vector per tensor, then
    the constructor, the embedding cell and the writer cell all succeed,
    and the file has the header [image_id, dim_0 .. dim_{k-1}] and one
    line per accepted record, in order: the identifier of the record
    followed by the printed values of its vector. *)
Theorem pipeline_end_to_end records prefix t sh max_images batch_size k :
  Forall (record_decodable prefix) (accepted prefix max_images records) →
  accepted prefix max_images records ≠ [] →
  (∀ image, shape (t image) = sh) →
  (∀ batch, List.length (model batch) = List.length batch
            ∧ Forall (λ v, List.length v = k) (model batch)) →
  1 ≤ batch_size →
  ∃ ds st file metadata_df,
    outcome (dataset_init records prefix (Some t) max_images) = Ok ds
    ∧ outcome (embedding_loop {| dl_dataset := ds; dl_batch_size := batch_size |}) = Ok st
    ∧ outcome (result_writer st) = Ok (file, metadata_df)
    ∧ image_ids_list st = image_ids ds
    ∧ csv_sep file = tab
    ∧ csv_header file = "image_id" :: dim_columns k
    ∧ csv_lines file
      = zip_with (λ image_id v, image_id :: (float_repr <$> v))
          (image_ids ds) (embeddings_list st)
    ∧ List.length (csv_lines file)
      = List.length (accepted prefix max_images records).
Proof.
  intros Hdec Hne Hsh Hmodel HB.
  destruct (map_result_total (index_item prefix) (accepted prefix max_images records))
    as [items Hitems].
  { eapply Forall_impl; [exact Hdec|]. apply index_item_decodable. }
  pose proof (map_result_length _ _ _ Hitems) as Hlen.
  pose proof (map_index_item_keys _ _ _ Hitems) as Hkeys. apply Forall_fmap in Hkeys.
  exists (dataset_of (Some t) items).
  set (final := fold_left (collect t) (batch_sampler (Z.to_nat batch_size) items [])
                  {| embeddings_list := []; image_ids_list := []; metadata_list := [] |}).
  exists final.
  assert (Hfinal : final
            = collected_of (zip (zip ((λ it, it.1.2) <$> items) (embeddings_list final))
                                ((λ it, it.2) <$> items))
              ∧ List.length (embeddings_list final) = List.length items
              ∧ Forall (λ v, List.length v = k) (embeddings_list final)).
  { unfold final. rewrite fold_collect.
    cbn [embeddings_list image_ids_list metadata_list app].
    rewrite (batch_sampler_concat _ items []). cbn [app].
    set (vecs := concat _).
    assert (Hvecs : List.length vecs = List.length items).
    { unfold vecs. rewrite (collected_length _ _ (λ b, proj1 (Hmodel b))).
      rewrite (batch_sampler_concat _ items []). reflexivity. }
    split; [|split; [exact Hvecs|apply collected_uniform; intros b; apply Hmodel]].
    unfold collected_of.
    destruct (zip3_projections ((λ it : PyVal * string * Dict string, it.1.2) <$> items)
                vecs ((λ it : PyVal * string * Dict string, it.2) <$> items))
      as (E1 & E2 & E3); [rewrite length_fmap; exact Hvecs|rewrite !length_fmap; reflexivity|].
    rewrite E1, E2, E3. reflexivity. }
  destruct Hfinal as (Hrows & Hvecs & Huniform).
  set (rows := zip (zip ((λ it, it.1.2) <$> items) (embeddings_list final))
                   ((λ it, it.2) <$> items)) in *.
  assert (Hrows_len : List.length rows = List.length items).
  { unfold rows. rewrite !length_zip, !length_fmap. lia. }
  assert (Hrows_ne : rows ≠ []).
  { intros E. rewrite E in Hrows_len. simpl in Hrows_len.
    destruct (accepted prefix max_images records); [congruence|].
    rewrite <- Hrows_len in Hlen. discriminate. }
  assert (Hrows_k : Forall (λ r : EmbeddingRow, List.length r.1.2 = k) rows).
  { assert (H : Forall (λ v, List.length v = k) ((λ r : EmbeddingRow, r.1.2) <$> rows)).
    { replace ((λ r : EmbeddingRow, r.1.2) <$> rows) with (embeddings_list final);
        [exact Huniform|].
      rewrite Hrows at 1. reflexivity. }
    apply Forall_fmap in H. exact H. }
  eexists _, _.
  split; [rewrite dataset_init_outcome, Hitems; reflexivity|].
  split; [rewrite (embedding_loop_run t sh items batch_size Hsh Hkeys HB); reflexivity|].
  split; [rewrite Hrows, (result_writer_rows rows k Hrows_ne Hrows_k); reflexivity|].
  cbn [csv_sep csv_header csv_lines dataset_of image_ids].
  split; [rewrite Hrows; unfold collected_of; cbn [image_ids_list]; unfold rows;
          apply zip3_projections; rewrite ?length_fmap; auto|].
  split; [reflexivity|]. split; [reflexivity|]. split.
  - unfold rows. apply (zip3_zip_with (λ image_id v, image_id :: (float_repr <$> v)));
      rewrite ?length_fmap; auto.
  - rewrite length_fmap, Hrows_len, Hlen. reflexivity.
Qed.

(** ** Dictionaries: un-batching and the metadata table *)

Lemma dict_set_fresh {V : Type} (d : Dict V) key value :
  key ∉ d.*1 → dict_set d key value = d ++ [(key, value)].
Proof.
  induction d as [|[k v] d IH]; intros H; [reflexivity|].
  cbn [dict_set]. rewrite fmap_cons in H. apply not_elem_of_cons in H as [Hne Hin].
  cbn [fst] in Hne. replace (String.eqb k key) with false
    by (symmetry; apply String.eqb_neq; congruence).
  rewrite (IH Hin). reflexivity.
Qed.

Lemma dict_update_fresh {V : Type} (row other : Dict V) :
  NoDup (row.*1 ++ other.*1) → dict_update row other = row ++ other.
Proof.
  revert row. induction other as [|[k v] other IH]; intros row Hnd.
  - unfold dict_update. cbn [fold_left]. rewrite app_nil_r. reflexivity.
  - unfold dict_update. cbn [fold_left fst snd]. fold (dict_update (dict_set row k v) other).
    rewrite fmap_cons in Hnd. cbn [fst] in Hnd.
    rewrite dict_set_fresh.
    + rewrite IH; [rewrite <- app_assoc; reflexivity|].
      rewrite fmap_app, <- app_assoc. exact Hnd.
    + apply NoDup_app in Hnd as (_ & Hdisj & _). intros Hin.
      apply (Hdisj k Hin). apply elem_of_cons. left. reflexivity.
Qed.

Lemma dict_get_lookup {V : Type} (d : Dict V) j key value :
  NoDup d.*1 → d !! j = Some (key, value) → dict_get d key = Ok value.
Proof.
  revert j. induction d as [|[k v] d IH]; intros j Hnd Hj; [discriminate|].
  rewrite fmap_cons in Hnd. apply NoDup_cons in Hnd as [Hk Hnd]. cbn [fst] in Hk.
  cbn [dict_get]. destruct j as [|j]; simpl in Hj.
  - injection Hj as -> ->. rewrite String.eqb_refl. reflexivity.
  - replace (String.eqb k key) with false; [apply (IH j Hnd Hj)|].
    symmetry. apply String.eqb_neq. intros ->. apply Hk.
    apply list_elem_of_fmap. exists (key, value). split; [reflexivity|].
    apply list_elem_of_lookup. eauto.
Qed.

Lemma individual_metadata_rebuild (d : Dict string) (mb : Dict (list string)) i acc :
  Forall2 (λ kv kc, kc.1 = kv.1 ∧ list_index kc.2 i = Ok kv.2) d mb →
  NoDup (acc.*1 ++ d.*1) →
  individual_metadata mb i acc = Ok (acc ++ d).
Proof.
  intros H. revert acc.
  induction H as [|[k v] [k' col] d mb [Hk Hv] _ IH]; intros acc Hnd.
  - cbn [individual_metadata]. rewrite app_nil_r. reflexivity.
  - cbn [fst snd] in Hk, Hv. subst k'. cbn [individual_metadata]. rewrite Hv, result_bind_Ok.
    rewrite fmap_cons in Hnd. cbn [fst] in Hnd.
    rewrite dict_set_fresh.
    + rewrite IH; [rewrite <- app_assoc; reflexivity|].
      rewrite fmap_app, <- app_assoc. exact Hnd.
    + apply NoDup_app in Hnd as (_ & Hdisj & _). intros Hin.
      apply (Hdisj k Hin). apply elem_of_cons. left. reflexivity.
Qed.

Lemma collate_entry_inv (batch : list (Dict string)) (kv : string * string)
    (kc : string * list string) :
  (map_result (λ d, dict_get d kv.1) batch ≫= λ values, mret (kv.1, values)) = Ok kc →
  kc.1 = kv.1 ∧ Forall2 (λ d v, dict_get d kv.1 = Ok v) batch kc.2.
Proof.
  destruct (map_result _ batch) as [values|] eqn:E; [|discriminate].
  intros H. injection H as <-. split; [reflexivity|]. apply map_result_Forall2, E.
Qed.

Lemma collate_keys (batch : list (Dict string)) (elem : Dict string)
    (mb : Dict (list string)) :
  Forall2 (λ kv kc,
             (map_result (λ d : Dict string, dict_get d kv.1) batch
              ≫= λ values, mret (kv.1, values)) = Ok kc) elem mb →
  mb.*1 = elem.*1.
Proof.
  induction 1 as [|kv kc el mb' Hkc _ IH]; [reflexivity|].
  rewrite !fmap_cons, IH. f_equal. apply (collate_entry_inv _ _ _ Hkc).
Qed.

(** X12: un-batching inverts collation.  For a non-empty batch of
    dictionaries that share one list of distinct keys, the loader's
    collated dictionary of lists is rebuilt by the loop into exactly the
    dictionaries of the batch, in order; the batch size is read from the
    first value list, so dictionaries with no key at all make the loop
    raise [IndexError]. *)
Theorem unbatch_inverts_collate (batch : list (Dict string)) (keys : list string) :
  batch ≠ [] → NoDup keys →
  Forall (λ md : Dict string, md.*1 = keys) batch →
  ∃ metadata_batch,
    collate_metadata batch = Ok metadata_batch
    ∧ metadata_batch.*1 = keys
    ∧ (keys ≠ [] →
       metadata_batch_size metadata_batch = Ok (List.length batch)
       ∧ map_result (λ i, individual_metadata metadata_batch i [])
           (Z.of_nat <$> seq 0 (List.length batch)) = Ok batch)
    ∧ (keys = [] → metadata_batch_size metadata_batch = Raise IndexError).
Proof.
  intros Hne Hnd Hkeys.
  destruct batch as [|elem rest]; [congruence|].
  assert (Helem : elem.*1 = keys) by (apply (Forall_inv Hkeys)).
  set (batch := elem :: rest) in *.
  set (entry := λ kv : string * string,
         map_result (λ d : Dict string, dict_get d kv.1) batch
         ≫= λ values, mret (kv.1, values)).
  assert (Hcollate : collate_metadata batch = map_result entry elem) by reflexivity.
  destruct (map_result_total entry elem) as [mb Hmb].
  { apply Forall_forall. intros kv Hkv. unfold entry.
    destruct (map_result_total (λ d : Dict string, dict_get d kv.1) batch) as [values ->];
      [|eauto].
    eapply Forall_impl; [exact Hkeys|]. intros d Hd. cbv beta in Hd.
    apply list_elem_of_lookup in Hkv as [j Hj].
    assert (Hdj : d.*1 !! j = Some kv.1)
      by (rewrite Hd, <- Helem, list_lookup_fmap, Hj; reflexivity).
    rewrite list_lookup_fmap in Hdj.
    destruct (d !! j) as [[k v]|] eqn:Edj; [|discriminate].
    injection Hdj as Hk. cbn [fst] in Hk. subst k. exists v.
    apply (dict_get_lookup d j); [rewrite Hd; exact Hnd|exact Edj]. }
  exists mb. rewrite Hcollate. split; [exact Hmb|].
  pose proof (map_result_Forall2 _ _ _ Hmb) as Hall.
  assert (Hmbkeys : mb.*1 = keys).
  { rewrite <- Helem. apply (collate_keys batch elem mb Hall). }
  split; [exact Hmbkeys|]. split.
  - intros Hk.
    assert (Hsize : metadata_batch_size mb = Ok (List.length batch)).
    { destruct mb as [|[k col] mb'].
      - apply Forall2_nil_inv_r in Hall. rewrite Hall in Helem. simpl in Helem. congruence.
      - apply Forall2_cons_inv_r in Hall as (kv & el & Hkc & _ & _).
        cbn [metadata_batch_size].
        apply collate_entry_inv in Hkc as [_ Hcol]. apply Forall2_length in Hcol.
        cbn [snd] in Hcol. rewrite Hcol. reflexivity. }
    split; [exact Hsize|].
    rewrite <- (list_fmap_id batch) at 2.
    apply map_result_seq. intros i d Hd. cbn [Nat.add id].
    rewrite (individual_metadata_rebuild d mb (Z.of_nat i) []);
      [reflexivity| |].
    + assert (Hdk : d.*1 = keys)
        by (apply (proj1 (Forall_lookup _ _) Hkeys i d Hd)).
      apply Forall2_same_length_lookup_2.
      * rewrite <- (length_fmap fst d), <- (length_fmap fst mb), Hdk, Hmbkeys. reflexivity.
      * intros j [k v] [k' col] Hdj Hmj. cbn [fst snd].
        destruct (Forall2_lookup_r _ _ _ _ _ Hall Hmj) as (kv & Hej & Hkc).
        apply collate_entry_inv in Hkc as [Hk' Hcol]. cbn [fst snd] in Hk', Hcol.
        assert (Hkk : k = kv.1).
        { assert (H1 : d.*1 !! j = Some k) by (rewrite list_lookup_fmap, Hdj; reflexivity).
          assert (H2 : elem.*1 !! j = Some kv.1) by (rewrite list_lookup_fmap, Hej; reflexivity).
          rewrite Hdk in H1. rewrite Helem in H2. congruence. }
        split; [congruence|].
        destruct (Forall2_lookup_l _ _ _ _ _ Hcol Hd) as (v' & Hv' & Hget).
        rewrite <- Hkk in Hget.
        rewrite (dict_get_lookup d j k v) in Hget;
          [|rewrite Hdk; exact Hnd|exact Hdj].
        injection Hget as <-. apply list_index_nat, Hv'.
    + cbn [fmap list_fmap app]. rewrite (proj1 (Forall_lookup _ _) Hkeys i d Hd). exact Hnd.
  - intros ->. destruct mb; [reflexivity|discriminate].
Qed.

(** X13: the metadata table the writer cell builds has one row per
    Embedding Row, in order, holding [image_id] first and then the
    metadata fields unchanged, whenever the metadata keys are distinct
    and [image_id] is not one of them. *)
Theorem metadata_table_rows (rows : list EmbeddingRow) :
  Forall (λ r : EmbeddingRow, NoDup r.2.*1 ∧ "image_id" ∉ r.2.*1) rows →
  metadata_rows (collected_of rows)
  = Ok ((λ r, ("image_id", r.1.1) :: r.2) <$> rows).
Proof.
  intros H. rewrite metadata_rows_of. f_equal.
  apply list_eq_Forall2, Forall2_fmap, Forall_Forall2_diag.
  eapply Forall_impl; [exact H|]. intros r [Hnd Hnot]. cbv beta.
  rewrite dict_update_fresh; [reflexivity|].
  cbn [fmap list_fmap fst app]. apply NoDup_cons. split; assumption.
Qed.

(** ** The packaging cell: upstream identifiers *)

(** [metadata_df[column]] for the frame built from the rows: the column
    exists when some row has the key, and a row without the key holds a
    missing value. *)
Definition frame_column (rows : list (Dict string)) (column : string)
  : result (list (option string)) :=
  if existsb (λ row : Dict string, existsb (String.eqb column) row.*1) rows
  then Ok ((λ row : Dict string,
              match dict_get row column with
              | Ok value => Some value
              | Raise _ => None
              end) <$> rows)
  else Raise KeyError.

(** [series.unique().tolist()]: the values in order of first appearance. *)
Definition series_unique (values : list (option string)) : list (option string) :=
  fold_left (λ seen x, if decide (x ∈ seen) then seen else seen ++ [x]) values [].

(** [source_image_arks = metadata_df['ark'].unique().tolist()] *)
Definition source_image_arks (metadata_df : list (Dict string))
  : result (list (option string)) :=
  column ← frame_column metadata_df "ark";
  mret (series_unique column).

Lemma unique_fold_spec (values seen : list (option string)) :
  NoDup seen →
  NoDup (fold_left (λ seen x, if decide (x ∈ seen) then seen else seen ++ [x]) values seen)
  ∧ ∀ x, x ∈ fold_left (λ seen x, if decide (x ∈ seen) then seen else seen ++ [x])
                 values seen
         ↔ x ∈ seen ∨ x ∈ values.
Proof.
  revert seen. induction values as [|v values IH]; intros seen Hnd; cbn [fold_left].
  - split; [exact Hnd|]. intros x. rewrite elem_of_nil.
    split; [auto|intros [H|[]]; exact H].
  - destruct (decide (v ∈ seen)) as [Hin|Hnot].
    + destruct (IH seen Hnd) as [H1 H2]. split; [exact H1|].
      intros x. rewrite H2, elem_of_cons.
      split; [intros [H|H]; auto|intros [H|[->|H]]; auto].
    + destruct (IH (seen ++ [v])) as [H1 H2].
      { apply NoDup_app. split; [exact Hnd|]. split; [|apply NoDup_singleton].
        intros y Hy ->%list_elem_of_singleton. contradiction. }
      split; [exact H1|].
      intros x. rewrite H2, elem_of_app, list_elem_of_singleton, elem_of_cons.
      split; [intros [[H|H]|H]; auto|intros [H|[H|H]]; auto].
Qed.


(** ** The cap and the uncapped dataset *)

Lemma map_result_take {A B : Type} (f : A → result B) (l : list A) (ys : list B) n :
  map_result f l = Ok ys → map_result f (take n l) = Ok (take n ys).
Proof.
  revert ys n. induction l as [|x l IH]; intros ys n H; cbn [map_result] in H.
  - injection H as <-. rewrite !take_nil. reflexivity.
  - destruct (f x) as [y|] eqn:Ey; [|discriminate]. rewrite result_bind_Ok in H.
    destruct (map_result f l) as [ys'|] eqn:E; [|discriminate].
    injection H as <-. destruct n as [|n]; [reflexivity|].
    cbn [take map_result]. rewrite Ey, result_bind_Ok, (IH ys' n eq_refl). reflexivity.
Qed.

(** X15: a positive cap only truncates: when the constructor succeeds
    without a cap, it succeeds with the cap [m > 0] and returns the first
    [m] paths, identifiers and metadata dictionaries of the uncapped
    dataset. *)
Theorem capped_is_prefix records prefix t m full :
  outcome (dataset_init records prefix t None) = Ok full →
  0 < m →
  outcome (dataset_init records prefix t (Some m))
  = Ok {| transform := t;
          image_paths := take (Z.to_nat m) (image_paths full);
          image_ids := take (Z.to_nat m) (image_ids full);
          metadata := take (Z.to_nat m) (metadata full) |}.
Proof.
  intros H Hm. revert H. rewrite !dataset_init_outcome. unfold accepted, cap_take.
  replace (m =? 0) with false by (symmetry; apply Z.eqb_neq; lia).
  destruct (map_result (index_item prefix) (List.filter (resolvable prefix) records))
    as [items|] eqn:E; [|discriminate].
  intros H. injection H as <-.
  rewrite (map_result_take _ _ _ (Z.to_nat m) E).
  transitivity (Ok (dataset_of t (take (Z.to_nat m) items))); [reflexivity|].
  f_equal. unfold dataset_of. cbn [image_paths image_ids metadata].
  rewrite !fmap_take. reflexivity.
Qed.

(** ** The embedding cell on placeholders and without a transform *)

(** X16: with a network that acts on each tensor separately, every image
    that does not decode gets the same vector, the network's output on
    the transformed placeholder. *)
Theorem undecodable_share_vector self t sh f batch_size :
  dataset_wf self →
  transform self = Some t →
  (∀ image, shape (t image) = sh) →
  (∀ batch, model batch = f <$> batch) →
  1 ≤ batch_size →
  ∃ st,
    outcome (embedding_loop {| dl_dataset := self; dl_batch_size := batch_size |}) = Ok st
    ∧ ∀ i image_path e,
        image_paths self !! i = Some image_path →
        Image_open_RGB image_path = inl e →
        embeddings_list st !! i = Some (f (t placeholder_image)).
Proof.
  intros Hwf Ht Hsh Hf HB.
  destruct (dataset_wf_view self t Hwf Ht) as (items & -> & Hkeys).
  rewrite (embedding_loop_run t sh items batch_size Hsh Hkeys HB).
  eexists. split; [reflexivity|].
  intros i image_path e Hi He. rewrite fold_collect. cbn [embeddings_list app].
  rewrite (collected_pointwise f _ _ Hf), (batch_sampler_concat _ items []). cbn [app].
  cbn [dataset_of image_paths] in Hi. rewrite list_lookup_fmap in Hi.
  rewrite list_lookup_fmap. destruct (items !! i) as [it|]; [|discriminate].
  injection Hi as <-. cbn [fmap option_fmap option_map].
  unfold item_tensor. rewrite He. reflexivity.
Qed.

(** The sample the accessor yields without a transform. *)
Definition sample_plain (it : PyVal * string * Dict string)
  : ImageValue * string * Dict string :=
  (match Image_open_RGB it.1.1 with
   | inr image => AsImage image
   | inl _ => AsTensor (torch_zeros [3; 224; 224])
   end, it.1.2, it.2).

Definition decodes (it : PyVal * string * Dict string) : bool :=
  match Image_open_RGB it.1.1 with
  | inr _ => true
  | inl _ => false
  end.

Lemma getitem_plain_run items i it :
  items !! i = Some it →
  getitem (dataset_of None items) (Z.of_nat i)
  = MkPy (error_lines it.1.1) (Ok (sample_plain it)).
Proof.
  intros H.
  assert (Hp : list_index (image_paths (dataset_of None items)) (Z.of_nat i) = Ok it.1.1)
    by (apply list_index_nat; cbn [dataset_of image_paths]; rewrite list_lookup_fmap, H; reflexivity).
  assert (Hi : list_index (image_ids (dataset_of None items)) (Z.of_nat i) = Ok it.1.2)
    by (apply list_index_nat; cbn [dataset_of image_ids]; rewrite list_lookup_fmap, H; reflexivity).
  assert (Hm : list_index (metadata (dataset_of None items)) (Z.of_nat i) = Ok it.2)
    by (apply list_index_nat; cbn [dataset_of metadata]; rewrite list_lookup_fmap, H; reflexivity).
  unfold sample_plain, error_lines.
  destruct (Image_open_RGB it.1.1) as [e|image] eqn:E.
  - rewrite (getitem_open_failed _ _ _ _ _ e Hp Hi Hm E). reflexivity.
  - rewrite (getitem_open_ok _ _ _ _ _ image Hp Hi Hm E). reflexivity.
Qed.

Lemma collate_plain_decoded xs :
  existsb decodes xs = true →
  default_collate (sample_plain <$> xs) = Raise TypeError.
Proof.
  intros H. unfold default_collate, collate_images.
  replace (map_result _ ((λ s : ImageValue * string * Dict string, s.1.1)
                           <$> (sample_plain <$> xs)))
    with (Raise (A:=list Tensor) TypeError); [reflexivity|].
  symmetry. unfold sample_plain, decodes in *.
  induction xs as [|x xs IH]; [discriminate|].
  rewrite !fmap_cons. cbn [map_result fst]. cbn [existsb] in H.
  destruct (Image_open_RGB x.1.1); [|reflexivity].
  rewrite result_bind_Ok, (IH H). reflexivity.
Qed.

Lemma collate_plain_undecoded xs :
  existsb decodes xs = false → xs ≠ [] →
  Forall (λ it : PyVal * string * Dict string, it.2.*1 = metadata_keys) xs →
  ∃ fs, default_collate (sample_plain <$> xs)
        = Ok ((λ _, torch_zeros [3; 224; 224]) <$> xs, (λ it, it.1.2) <$> xs,
              fields_columns fs).
Proof.
  intros H Hne Hkeys.
  assert (Hmd : Forall (λ md : Dict string, md.*1 = metadata_keys) ((λ it, it.2) <$> xs))
    by (apply Forall_fmap; exact Hkeys).
  apply metadata_fields in Hmd as [fs Hfs]. exists fs.
  unfold default_collate. rewrite <- !list_fmap_compose.
  replace ((λ s : ImageValue * string * Dict string, s.1.1) ∘ sample_plain <$> xs)
    with ((λ _ : PyVal * string * Dict string, AsTensor (torch_zeros [3; 224; 224])) <$> xs).
  - rewrite (collate_images_tensors (λ _, torch_zeros [3; 224; 224]) [3; 224; 224]),
      result_bind_Ok; [|intros; apply torch_zeros_zero|exact Hne].
    change ((λ s : ImageValue * string * Dict string, s.2) ∘ sample_plain <$> xs)
      with ((λ it : PyVal * string * Dict string, it.2) <$> xs).
    rewrite Hfs. destruct fs as [|x fs]; [destruct xs; [congruence|discriminate]|].
    rewrite collate_metadata_fields. reflexivity.
  - clear -H. induction xs as [|x xs IH]; [reflexivity|].
    cbn [existsb] in H. apply orb_false_iff in H as [Hx Hxs].
    rewrite !fmap_cons, (IH Hxs). f_equal.
    unfold compose, sample_plain. cbn [fst]. unfold decodes in Hx.
    destruct (Image_open_RGB x.1.1); [reflexivity|discriminate].
Qed.

Lemma for_each_raises {A S C : Type} (body : S → A → Py S) (R : A → C → Prop)
    (bad : C → bool) e xs ys s :
  (∀ s x y, R x y → bad y = false → ∃ s', outcome (body s x) = Ok s') →
  (∀ s x y, R x y → bad y = true → outcome (body s x) = Raise e) →
  Forall2 R xs ys → existsb bad ys = true →
  outcome (for_each xs body s) = Raise e.
Proof.
  intros Hgood Hbad H. revert s.
  induction H as [|x y xs ys Hxy _ IH]; intros s Hex; [discriminate|].
  cbn [for_each existsb] in *. rewrite outcome_bind.
  destruct (bad y) eqn:Ey.
  - rewrite (Hbad s x y Hxy Ey). reflexivity.
  - destruct (Hgood s x y Hxy Ey) as [s' ->]. apply IH. exact Hex.
Qed.

Lemma existsb_concat {A : Type} (P : A → bool) (xss : list (list A)) :
  existsb (existsb P) xss = existsb P (concat xss).
Proof.
  induction xss as [|xs xss IH]; [reflexivity|].
  cbn [existsb concat]. rewrite existsb_app, IH. reflexivity.
Qed.

(** X17: without a transform the embedding cell cannot batch a decoded
    image: if any image of the dataset decodes, the loop raises
    [TypeError] when its batch is collated. *)
Theorem no_transform_raises self batch_size :
  dataset_wf self →
  transform self = None →
  1 ≤ batch_size →
  (∃ image_path image, image_path ∈ image_paths self
                       ∧ Image_open_RGB image_path = inr image) →
  outcome (embedding_loop {| dl_dataset := self; dl_batch_size := batch_size |})
  = Raise TypeError.
Proof.
  intros Hwf Ht HB (image_path & image & Hin & Hopen).
  pose proof (dataset_wf_items self Hwf) as Hself. rewrite Ht in Hself.
  destruct Hwf as (_ & _ & Hkeys).
  set (items := dataset_items self) in *. clearbody items. subst self.
  cbn [dataset_of metadata image_paths] in *. apply Forall_fmap in Hkeys.
  unfold embedding_loop, dataloader_batches.
  cbn [dl_dataset dl_batch_size dataset_of image_paths]. rewrite length_fmap, outcome_bind.
  rewrite (for_each_raises _ (λ indices xs, at_indices items indices xs ∧ xs ≠ [])
             (existsb decodes) TypeError _
             (batch_sampler (Z.to_nat batch_size) items [])); [reflexivity| | | |].
  - intros st indices xs [Hat Hne] Hgood.
    assert (Hxs : Forall (λ it : PyVal * string * Dict string, it.2.*1 = metadata_keys) xs).
    { apply Forall_forall. intros it Hit. apply list_elem_of_lookup in Hit as [j Hj].
      destruct (Forall2_lookup_r _ _ _ _ _ Hat Hj) as (z & _ & i & _ & Hi).
      apply (proj1 (Forall_lookup _ _) Hkeys i it Hi). }
    destruct (collate_plain_undecoded xs Hgood Hne Hxs) as [fs Hfs].
    unfold embedding_step, dataloader_fetch. cbn [dl_dataset].
    rewrite (map_py_run _ (λ z it, ∃ i, z = Z.of_nat i ∧ items !! i = Some it)
               (λ it, error_lines it.1.1) sample_plain indices xs);
      [|intros z it (i & -> & Hi); apply getitem_plain_run, Hi|exact Hat].
    rewrite bind_MkPy_Ok, Hfs. cbn [lift printed outcome].
    rewrite bind_MkPy_Ok, embed_batch_fields. eauto.
  - intros st indices xs [Hat Hne] Hbad.
    unfold embedding_step, dataloader_fetch. cbn [dl_dataset].
    rewrite (map_py_run _ (λ z it, ∃ i, z = Z.of_nat i ∧ items !! i = Some it)
               (λ it, error_lines it.1.1) sample_plain indices xs);
      [|intros z it (i & -> & Hi); apply getitem_plain_run, Hi|exact Hat].
    rewrite bind_MkPy_Ok, (collate_plain_decoded xs Hbad). reflexivity.
  - apply Forall2_and_r.
    + apply batch_sampler_Forall2; [apply at_indices_all|constructor].
    + apply batch_sampler_nonempty. lia.
  - rewrite existsb_concat, (batch_sampler_concat _ items []). cbn [app].
    apply existsb_exists. apply list_elem_of_fmap in Hin as (it & -> & Hit).
    exists it. split; [apply list_elem_of_In, Hit|]. unfold decodes. rewrite Hopen. reflexivity.
Qed.

End Notebook.

(** * A worked example

    Four records: one with a [bytes] path to an existing file, one with
    no path, one with a [str] path to an existing file that does not
    decode as an image, and one whose file is missing. *)

Definition demo_r1 : DatasetRecord :=
  <["all_images/full_path" := PBytes (list_byte_of_string "/data/img/a.png")]>
  (<["all_images/treatment" := PBytes (list_byte_of_string "Vorinostat")]>
  (<["all_images/plate" := PInt 1]>
  (<["all_images/well" := PStr "A10"]> ∅))).

Definition demo_r2 : DatasetRecord :=
  <["all_images/treatment" := PStr "untreated"]> ∅.

Definition demo_r3 : DatasetRecord :=
  <["all_images/full_path" := PStr "/data/img/c.png"]>
  (<["all_images/plate" := PInt 2]> ∅).

Definition demo_r4 : DatasetRecord :=
  <["all_images/full_path" := PStr "/data/img/missing.png"]> ∅.

Definition demo_records : list DatasetRecord := [demo_r1; demo_r2; demo_r3; demo_r4].

(** A record whose treatment field is not UTF-8. *)
Definition demo_bad : DatasetRecord :=
  <["all_images/full_path" := PStr "/data/img/c.png"]>
  (<["all_images/treatment" := PBytes [xff]]> ∅).

Definition demo_exists (path : PyVal) : bool :=
  match path with
  | PBytes b => String.eqb (string_of_list_byte b) "/data/img/a.png"
  | PStr s => String.eqb s "/data/img/c.png"
  | _ => false
  end.

Definition demo_open (path : PyVal) : string + PILImage :=
  match path with
  | PStr _ => inl "cannot identify image file"
  | _ => inr (Image_new "RGB" (2, 1) (7, 8, 9))
  end.

(** A stand-in transform of fixed output shape and a stand-in network
    acting on each tensor of the batch. *)
Definition demo_transform (image : PILImage) : Tensor Z :=
  {| shape := [3; 224; 224]; data := [fst (img_size image); snd (img_size image)] |}.

Definition demo_model (batch : list (Tensor Z)) : list (list Z) :=
  data Z <$> batch.

Definition demo_md1 : Dict string :=
  [("treatment", "Vorinostat"); ("plate", "1"); ("well", "A10"); ("channel", "");
   ("hpa_antibody_id", ""); ("ensembl_id", ""); ("ark", "")].

Definition demo_md3 : Dict string :=
  [("treatment", ""); ("plate", "2"); ("well", ""); ("channel", "");
   ("hpa_antibody_id", ""); ("ensembl_id", ""); ("ark", "")].

Definition demo_items : list (PyVal * string * Dict string) :=
  [(PBytes (list_byte_of_string "/data/img/a.png"), "a.png", demo_md1);
   (PStr "/data/img/c.png", "c.png", demo_md3)].

Definition demo_ds : ImageEmbeddingDataset Z := dataset_of Z (Some demo_transform) demo_items.

Definition demo_rows : list (EmbeddingRow Z) :=
  [("a.png", [1; 2], demo_md1); ("c.png", [3; 4], demo_md3)].

Lemma demo_ds_wf : dataset_wf Z demo_ds.
Proof. repeat split. repeat constructor. Qed.

Example demo_ds_init :
  outcome (dataset_init Z demo_exists demo_records "all_images" (Some demo_transform)
             (Some 2)) = Ok demo_ds.
Proof. vm_compute. reflexivity. Qed.

(** What the constructor prints for the example records. *)
Example demo_init_printed :
  printed (dataset_init Z demo_exists demo_records "all_images" None None)
  = ["Sample metadata:"; "  Treatment: Vorinostat"; "  Plate: 1"; "  Well: A10";
     "  Channel: "; "  ARK ID: "].
Proof. vm_compute. reflexivity. Qed.

(** An accepted record whose metadata is not UTF-8 makes the constructor
    raise. *)
Example demo_init_undecodable :
  outcome (dataset_init Z demo_exists [demo_r1; demo_bad] "all_images" None None)
  = Raise UnicodeDecodeError.
Proof. vm_compute. reflexivity. Qed.

(** With nothing to write the writer raises: the empty array has no
    second dimension. *)
Example demo_writer_empty :
  outcome (result_writer Z int_str (collected_of Z [])) = Raise IndexError.
Proof. vm_compute. reflexivity. Qed.

(** C1, witness: the four records with a cap of two. *)
Lemma record_adapter_items_witness :
  ∃ ds,
    outcome (dataset_init Z demo_exists demo_records "all_images"
               (Some demo_transform) (Some 2)) = Ok ds
    ∧ Forall2 (λ r it, index_item "all_images" r = Ok it)
        (accepted demo_exists "all_images" (Some 2) demo_records) (dataset_items Z ds)
    ∧ image_paths Z ds
      = (λ r, record_get r ("all_images" +:+ "/full_path"))
          <$> accepted demo_exists "all_images" (Some 2) demo_records.
Proof.
  destruct (record_adapter_items Z demo_exists demo_records "all_images"
              (Some demo_transform) (Some 2))
    as (ds & Hds & Hitems & _ & Hpaths & _).
  - vm_compute. repeat constructor.
  - exists ds. repeat split; assumption.
Defined.

(** C1, counterexample: with a cap of [0] the literal reading stops at
    once and accepts nothing, while the constructor accepts the record. *)
Lemma adapter_cap_zero_counterexample :
  ¬ adapter_claim_literal Z demo_exists [demo_r1] "all_images" None (Some 0).
Proof.
  intros (ds & Hds & Hpaths). vm_compute in Hds. injection Hds as <-.
  vm_compute in Hpaths. discriminate Hpaths.
Qed.

(** C10, example: one resolvable record and a cap of [0] give one item. *)
Example demo_cap_zero :
  image_ids Z <$> outcome (dataset_init Z demo_exists [demo_r1] "all_images" None (Some 0))
  = Ok ["a.png"].
Proof. vm_compute. reflexivity. Qed.

(** C9, witness: the identifiers of the example dataset. *)
Lemma item_id_is_basename_witness :
  List.length (image_ids Z demo_ds) = List.length (image_paths Z demo_ds)
  ∧ (∀ i image_path, image_paths Z demo_ds !! i = Some image_path →
       ∃ image_id, image_ids Z demo_ds !! i = Some image_id
                 ∧ is_basename_of image_path image_id)
  ∧ (∀ idx image image_id md,
       outcome (getitem Z 0 demo_open demo_ds idx) = Ok (image, image_id, md) →
       ∃ image_path, list_index (image_paths Z demo_ds) idx = Ok image_path
                   ∧ is_basename_of image_path image_id).
Proof.
  apply (item_id_is_basename Z 0 demo_exists demo_open demo_records "all_images"
           (Some demo_transform) (Some 2) demo_ds).
  vm_compute. reflexivity.
Defined.

(** C4, witness: the second image of the example does not decode. *)
Lemma getitem_placeholder_witness :
  getitem Z 0 demo_open demo_ds 1
  = MkPy ["Error loading image /data/img/c.png: cannot identify image file"]
         (Ok (AsTensor Z (demo_transform placeholder_image), "c.png", demo_md3)).
Proof.
  destruct (getitem_placeholder Z 0 demo_open demo_ds 1 demo_ds_wf)
    as (image_path & image_id & md & Hp & Hi & Hm & Hfail & Ht & _).
  { unfold dataset_len. simpl. lia. }
  injection Hp as <-. injection Hi as <-. injection Hm as <-.
  rewrite (Hfail "cannot identify image file" eq_refl).
  rewrite (Ht demo_transform eq_refl). reflexivity.
Defined.

(** C3, witness: five items in batches of two. *)
Lemma batches_partition_witness :
  batch_sampler 2 [1; 2; 3; 4; 5] [] = [[1; 2]; [3; 4]; [5]]
  ∧ concat (batch_sampler 2 [1; 2; 3; 4; 5] []) = [1; 2; 3; 4; 5]
  ∧ List.length (batch_sampler 2 [1; 2; 3; 4; 5] []) = 3%nat.
Proof.
  destruct (batches_partition [1; 2; 3; 4; 5] 2) as (Hconcat & Hlen & _); [lia|].
  split; [reflexivity|]. split; [exact Hconcat|exact Hlen].
Defined.

(** C2, witness: the example dataset in batches of two. *)
Lemma embedding_rows_in_order_witness :
  ∃ dl st,
    DataLoader_new Z demo_ds 2 = Ok dl
    ∧ outcome (embedding_loop Z 0 demo_open demo_model dl) = Ok st
    ∧ image_ids_list Z st = ["a.png"; "c.png"]
    ∧ metadata_list Z st = [demo_md1; demo_md3]
    ∧ List.length (embeddings_list Z st) = 2%nat.
Proof.
  destruct (embedding_rows_in_order Z 0 demo_open demo_model demo_ds demo_transform
              [3; 224; 224] 2 demo_ds_wf eq_refl)
    as (dl & st & Hdl & Hst & Hids & Hmds & _ & Hlen & _).
  - intros image. reflexivity.
  - intros batch. apply length_fmap.
  - lia.
  - exists dl, st. repeat split; assumption.
Defined.


(** * Examples for the further properties *)

(** A stand-in network returning two values per tensor. *)
Definition demo_model2 (batch : list (Tensor Z)) : list (list Z) :=
  (λ t, [numel (shape Z t); 0]) <$> batch.

Definition demo_plain_ds : ImageEmbeddingDataset Z := dataset_of Z None demo_items.

Ltac not_in_list H :=
  repeat (apply elem_of_cons in H; destruct H as [H|H]; [discriminate H|]);
  apply elem_of_nil in H; exact H.

(** X1, witness: four records, two resolvable, a cap of two. *)
Lemma dataset_len_bounds_witness :
  dataset_len Z demo_ds = 2 ∧ dataset_len Z demo_ds ≤ Z.of_nat (List.length demo_records).
Proof.
  pose proof (dataset_len_bounds Z demo_exists demo_records "all_images"
                (Some demo_transform) (Some 2) demo_ds) as H.
  cbv zeta in H. destruct H as (H1 & _ & H3); [vm_compute; reflexivity|].
  split; [reflexivity|exact H3].
Defined.

(** X2, witness: an undecodable record after the cap is reached. *)
Lemma records_after_cap_ignored_witness :
  dataset_init Z demo_exists ([demo_r1; demo_r3] ++ [demo_bad]) "all_images" None (Some 2)
  = dataset_init Z demo_exists [demo_r1; demo_r3] "all_images" None (Some 2).
Proof.
  apply records_after_cap_ignored; [lia|]. vm_compute. intros H. discriminate H.
Defined.

(** X3, witness: a record whose file is missing, between two others. *)
Lemma unresolvable_record_inert_witness :
  dataset_init Z demo_exists ([demo_r1] ++ demo_r4 :: [demo_r3]) "all_images" None None
  = dataset_init Z demo_exists ([demo_r1] ++ [demo_r3]) "all_images" None None.
Proof. apply unresolvable_record_inert. vm_compute. reflexivity. Defined.

(** X5, witness: [/data/img/a.png]. *)
Lemma image_id_ignores_directory_witness :
  record_image_id (PStr "/data/img/a.png") = Ok "a.png"
  ∧ record_image_id (PStr "/other/a.png") = Ok "a.png".
Proof.
  assert (Hname : sep ∉ list_byte_of_string "a.png")
    by (unfold sep; vm_compute; intros H; not_in_list H).
  destruct (image_id_ignores_directory (list_byte_of_string "/data/img")
              (list_byte_of_string "a.png") Hname) as (_ & H1 & _).
  destruct (image_id_ignores_directory (list_byte_of_string "/other")
              (list_byte_of_string "a.png") Hname) as (_ & H2 & _).
  split; [exact H1|exact H2].
Defined.

(** X6, witness: the identifiers of the example dataset. *)
Lemma image_ids_no_separator_witness :
  Forall (λ image_id, sep ∉ list_byte_of_string image_id) (image_ids Z demo_ds).
Proof.
  apply (image_ids_no_separator Z demo_exists demo_records "all_images"
           (Some demo_transform) (Some 2) demo_ds).
  vm_compute. reflexivity.
Defined.


(** X8, witness: the second image of the example does not decode. *)
Lemma embedding_loop_printed_witness :
  printed (embedding_loop Z 0 demo_open demo_model
             {| dl_dataset := demo_ds; dl_batch_size := 2 |})
  = ["Error loading image /data/img/c.png: cannot identify image file";
     "✅ Generated 2 embeddings"].
Proof.
  rewrite (embedding_loop_printed Z 0 demo_open demo_model demo_ds demo_transform
             [3; 224; 224] 2 demo_ds_wf eq_refl);
    [reflexivity|intros image; reflexivity|intros batch; apply length_fmap|lia].
Defined.

(** X9, witness: batches of one and of two. *)
Lemma batch_size_irrelevant_witness :
  embedding_loop Z 0 demo_open demo_model {| dl_dataset := demo_ds; dl_batch_size := 1 |}
  = embedding_loop Z 0 demo_open demo_model {| dl_dataset := demo_ds; dl_batch_size := 2 |}.
Proof.
  apply (batch_size_irrelevant Z 0 demo_open demo_model demo_ds demo_transform
           [3; 224; 224] (data Z) 1 2 demo_ds_wf eq_refl);
    [intros image; reflexivity|intros batch; reflexivity|lia|lia].
Defined.


(** X11, witness: the example records through the three cells. *)
Lemma pipeline_end_to_end_witness :
  ∃ ds st file metadata_df,
    outcome (dataset_init Z demo_exists demo_records "all_images" (Some demo_transform)
               (Some 2)) = Ok ds
    ∧ outcome (embedding_loop Z 0 demo_open demo_model2
                 {| dl_dataset := ds; dl_batch_size := 2 |}) = Ok st
    ∧ outcome (result_writer Z int_str st) = Ok (file, metadata_df)
    ∧ csv_header file = ["image_id"; "dim_0"; "dim_1"]
    ∧ List.length (csv_lines file) = 2%nat.
Proof.
  destruct (pipeline_end_to_end Z 0 demo_exists demo_open demo_model2 int_str
              demo_records "all_images" demo_transform [3; 224; 224] (Some 2) 2 2)
    as (ds & st & file & metadata_df & H1 & H2 & H3 & _ & _ & H6 & _ & H8).
  - vm_compute. repeat constructor.
  - vm_compute. intros H. discriminate H.
  - intros image. reflexivity.
  - intros batch. split; [apply length_fmap|].
    apply Forall_fmap, Forall_forall. intros t _. reflexivity.
  - lia.
  - exists ds, st, file, metadata_df. repeat split; assumption.
Defined.

(** X12, witness: the two metadata dictionaries of the example. *)
Lemma unbatch_inverts_collate_witness :
  ∃ metadata_batch,
    collate_metadata [demo_md1; demo_md3] = Ok metadata_batch
    ∧ map_result (λ i, individual_metadata metadata_batch i []) [0; 1]
      = Ok [demo_md1; demo_md3].
Proof.
  destruct (unbatch_inverts_collate [demo_md1; demo_md3] metadata_keys)
    as (metadata_batch & Hc & _ & Hrt & _).
  - discriminate.
  - apply (bool_decide_unpack (NoDup metadata_keys)). vm_compute. exact I.
  - repeat constructor.
  - exists metadata_batch. split; [exact Hc|]. apply Hrt. discriminate.
Defined.

(** X13, witness: the metadata table of the example rows. *)
Lemma metadata_table_rows_witness :
  metadata_rows Z (collected_of Z demo_rows)
  = Ok [("image_id", "a.png") :: demo_md1; ("image_id", "c.png") :: demo_md3].
Proof.
  apply (metadata_table_rows Z demo_rows).
  repeat (constructor;
          [split;
           [apply (bool_decide_unpack (NoDup _))
           |apply (bool_decide_unpack (_ ∉ _))]; vm_compute; exact I|]).
  constructor.
Defined.

(** X14, example: the example rows have no ark, so the empty string is
    the one upstream identifier. *)
Example demo_source_image_arks :
  source_image_arks [("image_id", "a.png") :: demo_md1; ("image_id", "c.png") :: demo_md3]
  = Ok [Some ""].
Proof. vm_compute. reflexivity. Qed.

(** X15, witness: the example records with a cap of one. *)
Lemma capped_is_prefix_witness :
  outcome (dataset_init Z demo_exists demo_records "all_images" (Some demo_transform)
             (Some 1))
  = Ok {| transform := Some demo_transform;
          image_paths := take 1 (image_paths Z demo_ds);
          image_ids := take 1 (image_ids Z demo_ds);
          metadata := take 1 (metadata Z demo_ds) |}.
Proof.
  apply (capped_is_prefix Z demo_exists demo_records "all_images" (Some demo_transform)
           1 demo_ds); [vm_compute; reflexivity|lia].
Defined.

(** X16, witness: the second image of the example does not decode. *)
Lemma undecodable_share_vector_witness :
  ∃ st,
    outcome (embedding_loop Z 0 demo_open demo_model
               {| dl_dataset := demo_ds; dl_batch_size := 2 |}) = Ok st
    ∧ embeddings_list Z st !! 1%nat = Some (data Z (demo_transform placeholder_image)).
Proof.
  destruct (undecodable_share_vector Z 0 demo_open demo_model demo_ds demo_transform
              [3; 224; 224] (data Z) 2 demo_ds_wf eq_refl)
    as (st & Hst & Hvec);
    [intros image; reflexivity|intros batch; reflexivity|lia|].
  exists st. split; [exact Hst|].
  apply (Hvec 1%nat (PStr "/data/img/c.png") "cannot identify image file");
    reflexivity.
Defined.

(** X17, witness: the example items with no transform. *)
Lemma no_transform_raises_witness :
  outcome (embedding_loop Z 0 demo_open demo_model
             {| dl_dataset := demo_plain_ds; dl_batch_size := 2 |})
  = Raise TypeError.
Proof.
  apply no_transform_raises; [repeat split; repeat constructor|reflexivity|lia|].
  exists (PBytes (list_byte_of_string "/data/img/a.png")), (Image_new "RGB" (2, 1) (7, 8, 9)).
  split; [apply elem_of_cons; left; reflexivity|reflexivity].
Defined.
